(** * Semi-automatic bottle filling machine: a model of [src/main.cpp]

    The firmware runs on an AVR Arduino board: [byte] is 8 bits, [int] and
    [unsigned int] are 16 bits, [long] is 32 bits.  Integers are modelled
    as [Z] with the conversions of the target written out; the EEPROM is a
    finite map from cell addresses to bytes; the global variables and the
    state of the peripherals are one record that every function threads.

    Text sent to the display and to the serial port and the [delay] calls
    have no effect on that state and are left out; of [lcd.print] only
    the reads of [VOLUME] are kept.  Busy loops take fuel: one unit per
    evaluation of the loop condition. *)

From Stdlib Require Import ZArith List Bool Lia.
From stdpp Require Import base option list gmap.
Import ListNotations.

Local Open Scope Z_scope.

(** ** Machine integers *)

Module Int.

(** Conversion to [byte] / [uint8_t]. *)
Definition to_byte (z : Z) : Z := z mod 2 ^ 8.

(** Conversion to [uint16_t]. *)
Definition to_u16 (z : Z) : Z := z mod 2 ^ 16.

(** Conversion to [unsigned long]. *)
Definition to_ulong (z : Z) : Z := z mod 2 ^ 32.

(** Conversion to (signed) [long]: reduction modulo 2^32 into
    [-2^31, 2^31). *)
Definition to_long (z : Z) : Z := (z + 2 ^ 31) mod 2 ^ 32 - 2 ^ 31.

Definition long_range (z : Z) : Prop := - 2 ^ 31 <= z < 2 ^ 31.

(** [long] arithmetic used by the sketch. *)
Definition long_sub (a b : Z) : Z := to_long (a - b).
Definition long_shl (a n : Z) : Z := to_long (Z.shiftl a n).

(** [!x] on an [int]. *)
Definition lnot (z : Z) : Z := if z =? 0 then 1 else 0.

End Int.

(** ** EEPROM *)

Module EEPROM.

(** [EEPROM.read]: an erased cell reads 0xFF. *)
Definition read (e : gmap Z Z) (a : Z) : Z := default 255 (e !! a).

(** [EEPROM.write]. *)
Definition write (a b : Z) (e : gmap Z Z) : gmap Z Z := <[a := b]> e.

End EEPROM.

(** [EEPROMWrite(address, value)] on the cell map. *)
Definition EEPROMWrite_cells (address value : Z) (e : gmap Z Z) : gmap Z Z :=
  let four := Int.to_byte (Z.land value 0xFF) in
  let three := Int.to_byte (Z.land (Z.shiftr value 8) 0xFF) in
  let two := Int.to_byte (Z.land (Z.shiftr value 16) 0xFF) in
  let one := Int.to_byte (Z.land (Z.shiftr value 24) 0xFF) in
  let e := EEPROM.write address four e in
  let e := EEPROM.write (address + 1) three e in
  let e := EEPROM.write (address + 2) two e in
  EEPROM.write (address + 3) one e.

(** [EEPROMRead(address)] on the cell map.  The last summand is masked
    with an [unsigned long] constant, so the sum is computed in
    [unsigned long] and converted to [long] by the [return].  [address]
    is the cell that reaches [EEPROM.read(int)]: the conversion of the
    [long] parameter to [int] is the identity on 0..32764, where the
    slots 0, 4, 8 of the sketch lie, and is not modelled beyond. *)
Definition EEPROMRead_cells (address : Z) (e : gmap Z Z) : Z :=
  let four := EEPROM.read e address in
  let three := EEPROM.read e (address + 1) in
  let two := EEPROM.read e (address + 2) in
  let one := EEPROM.read e (address + 3) in
  Int.to_long
    (Int.to_ulong
       (Z.land (Int.long_shl four 0) 0xFF
        + Z.land (Int.long_shl three 8) 0xFFFF
        + Z.land (Int.long_shl two 16) 0xFFFFFF
        + Int.to_ulong (Z.land (Int.long_shl one 24) 0xFFFFFFFF))).

(** ** The environment

    The firmware polls its inputs.  The environment fixes what each poll
    returns: the [k]-th call of a given input routine gets the [k]-th
    element of that input's stream (counting from 0 since power-up). *)

Record Env := {
  (** [scale.read()]: raw signed reading of the load-cell amplifier *)
  scale_read : nat -> Z;
  (** [scale.get_units(5)]: integer part of the averaged reading *)
  scale_get_units : nat -> Z;
  (** [digitalRead(DISPENSE)]: [true] is HIGH (button released) *)
  pin_DISPENSE : nat -> bool;
  (** [digitalRead(MODE)]: [true] is HIGH (button released) *)
  pin_MODE : nat -> bool
}.

(** ** The machine state *)

Record Machine := {
  (** globals of the sketch *)
  val : list Z;
  index : Z;
  selectedMode : Z;
  (** [static uint16_t State] of [DebounceSwitch] *)
  State : Z;
  (** locals of [calibrateFunction], live across its busy loops *)
  flag : Z;
  localValue : Z;
  (** peripherals *)
  eeprom : gmap Z Z;
  LED_BUILTIN : bool;
  RELAY_PIN : bool;
  (** number of polls made so far on each input *)
  n_scale : nat;
  n_units : nat;
  n_DISPENSE : nat;
  n_MODE : nat;
  (** history: arguments of the calls of [control], and the indices at
      which [VOLUME] was read, oldest first *)
  control_calls : list Z;
  VOLUME_reads : list Z
}.

Definition address : list Z := [0; 4; 8].
Definition VOLUME : list Z := [200; 450; 900].

(** State of the globals when the sketch starts, over the EEPROM
    contents [e] found at power-up. *)
Definition power_on (e : gmap Z Z) : Machine :=
  {| val := [220000; 240000; 250000; -1]; index := 0; selectedMode := 0;
     State := 0; flag := 0; localValue := 0; eeprom := e;
     LED_BUILTIN := false; RELAY_PIN := false;
     n_scale := 0; n_units := 0; n_DISPENSE := 0; n_MODE := 0;
     control_calls := []; VOLUME_reads := [] |}.

Definition set_val (v : list Z) (m : Machine) : Machine :=
  {| val := v; index := index m; selectedMode := selectedMode m;
     State := State m; flag := flag m; localValue := localValue m;
     eeprom := eeprom m; LED_BUILTIN := LED_BUILTIN m;
     RELAY_PIN := RELAY_PIN m; n_scale := n_scale m; n_units := n_units m;
     n_DISPENSE := n_DISPENSE m; n_MODE := n_MODE m;
     control_calls := control_calls m; VOLUME_reads := VOLUME_reads m |}.

Definition set_index (i : Z) (m : Machine) : Machine :=
  {| val := val m; index := i; selectedMode := selectedMode m;
     State := State m; flag := flag m; localValue := localValue m;
     eeprom := eeprom m; LED_BUILTIN := LED_BUILTIN m;
     RELAY_PIN := RELAY_PIN m; n_scale := n_scale m; n_units := n_units m;
     n_DISPENSE := n_DISPENSE m; n_MODE := n_MODE m;
     control_calls := control_calls m; VOLUME_reads := VOLUME_reads m |}.

Definition set_selectedMode (i : Z) (m : Machine) : Machine :=
  {| val := val m; index := index m; selectedMode := i;
     State := State m; flag := flag m; localValue := localValue m;
     eeprom := eeprom m; LED_BUILTIN := LED_BUILTIN m;
     RELAY_PIN := RELAY_PIN m; n_scale := n_scale m; n_units := n_units m;
     n_DISPENSE := n_DISPENSE m; n_MODE := n_MODE m;
     control_calls := control_calls m; VOLUME_reads := VOLUME_reads m |}.

Definition set_State (s : Z) (m : Machine) : Machine :=
  {| val := val m; index := index m; selectedMode := selectedMode m;
     State := s; flag := flag m; localValue := localValue m;
     eeprom := eeprom m; LED_BUILTIN := LED_BUILTIN m;
     RELAY_PIN := RELAY_PIN m; n_scale := n_scale m; n_units := n_units m;
     n_DISPENSE := n_DISPENSE m; n_MODE := n_MODE m;
     control_calls := control_calls m; VOLUME_reads := VOLUME_reads m |}.

Definition set_locals (f v : Z) (m : Machine) : Machine :=
  {| val := val m; index := index m; selectedMode := selectedMode m;
     State := State m; flag := f; localValue := v;
     eeprom := eeprom m; LED_BUILTIN := LED_BUILTIN m;
     RELAY_PIN := RELAY_PIN m; n_scale := n_scale m; n_units := n_units m;
     n_DISPENSE := n_DISPENSE m; n_MODE := n_MODE m;
     control_calls := control_calls m; VOLUME_reads := VOLUME_reads m |}.

Definition set_eeprom (e : gmap Z Z) (m : Machine) : Machine :=
  {| val := val m; index := index m; selectedMode := selectedMode m;
     State := State m; flag := flag m; localValue := localValue m;
     eeprom := e; LED_BUILTIN := LED_BUILTIN m;
     RELAY_PIN := RELAY_PIN m; n_scale := n_scale m; n_units := n_units m;
     n_DISPENSE := n_DISPENSE m; n_MODE := n_MODE m;
     control_calls := control_calls m; VOLUME_reads := VOLUME_reads m |}.

Definition set_outputs (led relay : bool) (m : Machine) : Machine :=
  {| val := val m; index := index m; selectedMode := selectedMode m;
     State := State m; flag := flag m; localValue := localValue m;
     eeprom := eeprom m; LED_BUILTIN := led;
     RELAY_PIN := relay; n_scale := n_scale m; n_units := n_units m;
     n_DISPENSE := n_DISPENSE m; n_MODE := n_MODE m;
     control_calls := control_calls m; VOLUME_reads := VOLUME_reads m |}.

Definition set_polls (s u d mo : nat) (m : Machine) : Machine :=
  {| val := val m; index := index m; selectedMode := selectedMode m;
     State := State m; flag := flag m; localValue := localValue m;
     eeprom := eeprom m; LED_BUILTIN := LED_BUILTIN m;
     RELAY_PIN := RELAY_PIN m; n_scale := s; n_units := u;
     n_DISPENSE := d; n_MODE := mo;
     control_calls := control_calls m; VOLUME_reads := VOLUME_reads m |}.

Definition set_history (c v : list Z) (m : Machine) : Machine :=
  {| val := val m; index := index m; selectedMode := selectedMode m;
     State := State m; flag := flag m; localValue := localValue m;
     eeprom := eeprom m; LED_BUILTIN := LED_BUILTIN m;
     RELAY_PIN := RELAY_PIN m; n_scale := n_scale m; n_units := n_units m;
     n_DISPENSE := n_DISPENSE m; n_MODE := n_MODE m;
     control_calls := c; VOLUME_reads := v |}.

(** [a[i]] for a C array held as a list.  A read past the end is undefined
    in C; the model returns 0 there. *)
Definition array_get (a : list Z) (i : Z) : Z := default 0 (a !! Z.to_nat i).

(** [a[i] = x]. *)
Definition array_set (a : list Z) (i x : Z) : list Z := <[Z.to_nat i := x]> a.

(** ** Computations

    A function of the sketch either returns ([Done]) or is still inside
    one of its busy loops when the fuel given to it runs out ([Spin]);
    both carry the machine state reached. *)

Inductive outcome (A : Type) : Type :=
| Done (a : A) (m : Machine)
| Spin (m : Machine).

Arguments Done {A} a m.
Arguments Spin {A} m.

Definition state_of {A} (o : outcome A) : Machine :=
  match o with Done _ m => m | Spin m => m end.

Definition returns {A} (o : outcome A) : bool :=
  match o with Done _ _ => true | Spin _ => false end.

Definition comp (A : Type) : Type := Machine -> outcome A.

Definition ret {A} (a : A) : comp A := fun m => Done a m.

Definition bind {A B} (c : comp A) (k : A -> comp B) : comp B :=
  fun m => match c m with Done a m' => k a m' | Spin m' => Spin m' end.

Definition get : comp Machine := fun m => Done m m.
Definition modify (f : Machine -> Machine) : comp unit := fun m => Done tt (f m).

Declare Scope comp_scope.
Delimit Scope comp_scope with comp.
Bind Scope comp_scope with comp.
Notation "x <- c ;; k" := (bind c (fun x => k))
  (at level 100, c at next level, k at level 200, right associativity) : comp_scope.
Notation "c ;; k" := (bind c (fun _ => k))
  (at level 100, k at level 200, right associativity) : comp_scope.

Local Open Scope comp_scope.

Inductive input_pin := DISPENSE | MODE.
Inductive output_pin := LED | RELAY.

Section Firmware.

Variable env : Env.

(** *** Peripherals *)

Definition digitalRead (p : input_pin) : comp Z := fun m =>
  match p with
  | DISPENSE =>
      Done (Z.b2z (pin_DISPENSE env (n_DISPENSE m)))
           (set_polls (n_scale m) (n_units m) (S (n_DISPENSE m)) (n_MODE m) m)
  | MODE =>
      Done (Z.b2z (pin_MODE env (n_MODE m)))
           (set_polls (n_scale m) (n_units m) (n_DISPENSE m) (S (n_MODE m)) m)
  end.

Definition digitalWrite (p : output_pin) (level : bool) : comp unit :=
  modify (fun m =>
    match p with
    | LED => set_outputs level (RELAY_PIN m) m
    | RELAY => set_outputs (LED_BUILTIN m) level m
    end).

Definition scale_dot_read : comp Z := fun m =>
  Done (scale_read env (n_scale m))
       (set_polls (S (n_scale m)) (n_units m) (n_DISPENSE m) (n_MODE m) m).

Definition scale_dot_get_units : comp Z := fun m =>
  Done (scale_get_units env (n_units m))
       (set_polls (n_scale m) (S (n_units m)) (n_DISPENSE m) (n_MODE m) m).

(** [lcd.print(VOLUME[i])]: the display itself is not modelled, the read
    of the array is recorded. *)
Definition lcd_print_VOLUME (i : Z) : comp unit :=
  modify (fun m => set_history (control_calls m) (VOLUME_reads m ++ [i]) m).

Definition EEPROMWrite (a value : Z) : comp unit :=
  modify (fun m => set_eeprom (EEPROMWrite_cells a value (eeprom m)) m).

Definition EEPROMRead (a : Z) : comp Z :=
  m <- get ;; ret (EEPROMRead_cells a (eeprom m)).

(** *** [DebounceSwitch] *)

(** [State = (State << 1) | !digitalRead(MODE) | 0xe000;] on the
    [uint16_t] register: the operands are promoted to [unsigned int], the
    result is reduced modulo 2^16. *)
Definition debounce_next (level State : Z) : Z :=
  Int.to_u16 (Z.lor (Z.lor (Z.shiftl State 1) (Int.lnot level)) 0xe000).

Definition debounce_out (State : Z) : Z := if State =? 0xf000 then 1 else 0.

Definition DebounceSwitch : comp Z :=
  level <- digitalRead MODE ;;
  m <- get ;;
  let s := debounce_next level (State m) in
  modify (set_State s) ;;
  ret (debounce_out s).

(** *** [updateMode] *)

Definition updateMode (localIndex : Z) : comp unit :=
  if localIndex =? 3 then ret tt else lcd_print_VOLUME localIndex.

(** *** [control] *)

(** [byte n = 3]: length of the median array. *)
Definition n : nat := 3.

(** [for (m = 0; m < n; m++) medianArray[m] = -1 * scale.read();] *)
Fixpoint log_readings (count : nat) : comp (list Z) :=
  match count with
  | O => ret []
  | S count' =>
      r <- scale_dot_read ;;
      rest <- log_readings count' ;;
      ret (Int.to_long (-1 * r) :: rest)
  end.

(** Body of the inner sorting loop: compare and swap cells [t], [t+1]. *)
Definition swap_step (medianArray : list Z) (t : nat) : list Z :=
  match medianArray !! t, medianArray !! S t with
  | Some x, Some y =>
      if x >? y then <[S t := x]> (<[t := y]> medianArray) else medianArray
  | _, _ => medianArray
  end.

(** [for (t = 0; t < n - s - 1; t++) ...] *)
Definition inner_loop (medianArray : list Z) (s : nat) : list Z :=
  fold_left swap_step (seq 0 (n - s - 1)) medianArray.

(** [for (s = 0; s < n - 1; s++) ...] *)
Definition rearrange (medianArray : list Z) : list Z :=
  fold_left inner_loop (seq 0 (n - 1)) medianArray.

(** [(n + 1) / 2] *)
Definition median_index : nat := ((n + 1) / 2)%nat.

(** One pass of the [do] body: three readings, sort, pick. *)
Definition median_pass : comp Z :=
  medianArray <- log_readings n ;;
  ret (array_get (rearrange medianArray) (Z.of_nat median_index)).

(** [do { ... } while (localVal - medianValue > 0);] *)
Fixpoint median_loop (fuel : nat) (localVal : Z) : comp unit :=
  match fuel with
  | O => Spin
  | S fuel' =>
      medianValue <- median_pass ;;
      if Int.long_sub localVal medianValue >? 0
      then median_loop fuel' localVal
      else ret tt
  end.

(** [while (digitalRead(DISPENSE) == 0) {};] *)
Fixpoint manual_loop (fuel : nat) : comp unit :=
  match fuel with
  | O => Spin
  | S fuel' =>
      d <- digitalRead DISPENSE ;;
      if d =? 0 then manual_loop fuel' else ret tt
  end.

Definition control (fuel : nat) (localVal : Z) : comp unit :=
  modify (fun m => set_history (control_calls m ++ [localVal]) (VOLUME_reads m) m) ;;
  (if negb (localVal =? -1) then median_loop fuel localVal
   else manual_loop fuel) ;;
  digitalWrite LED false ;;
  digitalWrite RELAY false ;;
  m <- get ;;
  updateMode (index m).

(** *** [loop] *)

(** [index++; if (index > 3) index = 0;] on the [byte] index. *)
Definition next_index (index : Z) : Z :=
  let index := Int.to_byte (index + 1) in
  if index >? 3 then 0 else index.

Definition loop (fuel : nat) : comp unit :=
  switchState <- DebounceSwitch ;;
  r <- scale_dot_read ;;
  let reading := Int.to_long (r * -1) in
  d <- digitalRead DISPENSE ;;
  m <- get ;;
  (if (d =? 0) && (reading <? array_get (val m) (index m)) then
     lcd_print_VOLUME (index m) ;;
     digitalWrite LED true ;;
     digitalWrite RELAY true ;;
     control fuel (array_get (val m) (index m))
   else ret tt) ;;
  if switchState =? 1 then
    modify (fun m => set_index (next_index (index m)) m) ;;
    m <- get ;;
    updateMode (index m)
  else ret tt.

(** *** [calibrateFunction] *)

(** [while (digitalRead(MODE) == 0) { ... }] *)
Fixpoint hold_loop (fuel : nat) : comp unit :=
  match fuel with
  | O => Spin
  | S fuel' =>
      mo <- digitalRead MODE ;;
      if mo =? 0 then
        digitalWrite LED true ;;
        digitalWrite RELAY true ;;
        u <- scale_dot_get_units ;;
        modify (fun m => set_locals (if flag m =? 0 then 1 else flag m)
                                    (Int.to_long (u * -1)) m) ;;
        hold_loop fuel'
      else ret tt
  end.

(** [while (flag == 0) { hold_loop; outputs off }] *)
Fixpoint capture_loop (fuel : nat) : comp unit :=
  match fuel with
  | O => Spin
  | S fuel' =>
      m <- get ;;
      if flag m =? 0 then
        hold_loop fuel ;;
        digitalWrite LED false ;;
        digitalWrite RELAY false ;;
        capture_loop fuel'
      else ret tt
  end.

Definition calibrateFunction (fuel : nat) (localIndex : Z) : comp unit :=
  modify (fun m => set_locals 0 (array_get (val m) localIndex) m) ;;
  lcd_print_VOLUME localIndex ;;
  capture_loop fuel ;;
  m <- get ;;
  EEPROMWrite (array_get address localIndex) (localValue m).

(** *** [selection] *)

(** [while (digitalRead(DISPENSE) == 0 || digitalRead(MODE) == 0) {};] *)
Fixpoint release_loop (fuel : nat) : comp unit :=
  match fuel with
  | O => Spin
  | S fuel' =>
      d <- digitalRead DISPENSE ;;
      if d =? 0 then release_loop fuel'
      else
        mo <- digitalRead MODE ;;
        if mo =? 0 then release_loop fuel' else ret tt
  end.

(** [while (selectionFlag == 0) { ... }] *)
Fixpoint selection_loop (fuel : nat) (selectionIndex : Z) : comp Z :=
  match fuel with
  | O => Spin
  | S fuel' =>
      localSwitchState <- DebounceSwitch ;;
      d <- digitalRead DISPENSE ;;
      updateMode selectionIndex ;;
      let selectionIndex :=
        if localSwitchState =? 1
        then (if selectionIndex + 1 >? 2 then 0 else selectionIndex + 1)
        else selectionIndex in
      if d =? 0 then ret selectionIndex
      else selection_loop fuel' selectionIndex
  end.

Definition selection (fuel : nat) : comp Z :=
  release_loop fuel ;;
  updateMode 0 ;;
  selection_loop fuel 0.

(** *** [inspectContents] *)

Fixpoint inspect_loop (fuel : nat) (inspectIndex : Z) : comp unit :=
  match fuel with
  | O => Spin
  | S fuel' =>
      inspectSwitchState <- DebounceSwitch ;;
      let inspectIndex :=
        if inspectSwitchState =? 1
        then (if inspectIndex + 1 >? 3 then 0 else inspectIndex + 1)
        else inspectIndex in
      (if inspectIndex <? 3 then lcd_print_VOLUME inspectIndex
       else _ <- scale_dot_read ;; ret tt) ;;
      d <- digitalRead DISPENSE ;;
      if d =? 0 then ret tt else inspect_loop fuel' inspectIndex
  end.

Definition inspectContents (fuel : nat) : comp unit := inspect_loop fuel 0.

(** *** [setup] *)

(** [for (i = 0; i < 3; i++) val[i] = EEPROMRead(address[i]);] *)
Definition load_step (i : nat) : comp unit :=
  v <- EEPROMRead (array_get address (Z.of_nat i)) ;;
  modify (fun m => set_val (array_set (val m) (Z.of_nat i) v) m).

Definition load_thresholds : comp unit :=
  load_step 0 ;; load_step 1 ;; load_step 2.

Definition setup (fuel : nat) : comp unit :=
  d <- digitalRead DISPENSE ;;
  both <- (if d =? 0 then mo <- digitalRead MODE ;; ret (mo =? 0)
           else ret false) ;;
  (if both : bool then
     s <- selection fuel ;;
     modify (set_selectedMode s) ;;
     calibrateFunction fuel s
   else ret tt) ;;
  load_thresholds ;;
  mo <- digitalRead MODE ;;
  d <- digitalRead DISPENSE ;;
  (if Z.lxor mo d =? 1 then inspectContents fuel else ret tt) ;;
  m <- get ;;
  updateMode (index m).

(** *** The sketch: [setup()] once, then [loop()] again and again *)

Fixpoint loops (fuel : nat) (k : nat) : comp unit :=
  match k with
  | O => ret tt
  | S k' => loop fuel ;; loops fuel k'
  end.

Definition sketch (fuel : nat) (k : nat) : comp unit :=
  setup fuel ;; loops fuel k.

End Firmware.

(** * Vocabulary of the properties *)

(** The reading that pass [j] of the dispense loop compares with the
    threshold when the loop starts after [c] calls of [scale.read()]. *)
Definition representative (env : Env) (c j : nat) : Z :=
  let reading k := Int.to_long (-1 * scale_read env (c + 3 * j + k)) in
  array_get (rearrange [reading 0%nat; reading 1%nat; reading 2%nat])
            (Z.of_nat median_index).

(** Range of the raw readings of the 24-bit load-cell amplifier. *)
Definition hx711_range (z : Z) : Prop := - 2 ^ 23 <= z < 2 ^ 23.

(** State on entry to [control(t)]: the call is in the history. *)
Definition logged (t : Z) (m : Machine) : Machine :=
  set_history (control_calls m ++ [t]) (VOLUME_reads m) m.

(** Results of successive calls of [DebounceSwitch] that find the given
    levels on the MODE pin, starting from the register value [State]. *)
Fixpoint polls (levels : list bool) (State : Z) : list Z :=
  match levels with
  | [] => []
  | level :: levels =>
      let s := debounce_next (Z.b2z level) State in
      debounce_out s :: polls levels s
  end.

(** Number of polls that return Triggered. *)
Definition triggered (outs : list Z) : nat := count_occ Z.eq_dec outs 1.

(** Register value after the polls. *)
Definition run (levels : list bool) (State : Z) : Z :=
  fold_left (fun s level => debounce_next (Z.b2z level) s) levels State.

(** No LOW sample among the last twelve. *)
Definition quiet (s : Z) : Prop :=
  forall i, 0 <= i < 12 -> Z.testbit s i = false.

(** The most recent LOW sample was taken [j] polls ago. *)
Definition last_low (j s : Z) : Prop :=
  0 <= j /\ Z.testbit s j = true
  /\ forall i, 0 <= i < j -> Z.testbit s i = false.

(** Only the last [k] samples are in the register, the rest is clear. *)
Definition fresh (k s : Z) : Prop :=
  forall i, k <= i < 13 -> Z.testbit s i = false.

(** [k] successive calls of [DebounceSwitch]. *)
Fixpoint DebounceSwitch_calls (env : Env) (k : nat) : comp (list Z) :=
  match k with
  | O => ret []
  | S k' =>
      out <- DebounceSwitch env ;;
      outs <- DebounceSwitch_calls env k' ;;
      ret (out :: outs)
  end.

(** [preserves R c]: whatever state [c] starts in, the state it reaches,
    returned or still spinning, is related to it by [R]. *)
Definition preserves {A} (R : relation Machine) (c : comp A) : Prop :=
  forall m, R m (state_of (c m)).

(** [same f]: the observation [f] of the state has not changed. *)
Definition same {T} (f : Machine -> T) : relation Machine :=
  fun m m' => f m' = f m.

(** [keeps P]: the state property [P] has not been lost. *)
Definition keeps (P : Machine -> Prop) : relation Machine :=
  fun m m' => P m -> P m'.

(** The relation is insensitive to polling the inputs, driving the
    outputs and printing on the display. *)
Record primitive_frame (R : relation Machine) (env : Env) : Prop := {
  pf_read : forall p, preserves R (digitalRead env p);
  pf_write : forall p level, preserves R (digitalWrite p level);
  pf_scale : preserves R (scale_dot_read env);
  pf_lcd : forall i, preserves R (lcd_print_VOLUME i)
}.

(** State after the polls that start an iteration of [loop]. *)
Definition polled (env : Env) (m : Machine) : Machine :=
  set_polls (S (n_scale m)) (n_units m) (S (n_DISPENSE m)) (S (n_MODE m))
            (set_State (debounce_next (Z.b2z (pin_MODE env (n_MODE m))) (State m))
                       m).

(** The condition under which [loop] enters its dispense branch. *)
Definition dispense_condition (env : Env) (m : Machine) : bool :=
  negb (pin_DISPENSE env (n_DISPENSE m))
  && (Int.to_long (scale_read env (n_scale m) * -1)
      <? array_get (val m) (index m)).

(** The result of the call of [DebounceSwitch] in [loop]. *)
Definition switchState (env : Env) (m : Machine) : Z :=
  debounce_out (debounce_next (Z.b2z (pin_MODE env (n_MODE m))) (State m)).

(** State in which [calibrateFunction] enters its capture loop. *)
Definition capture_start (i : Z) (m : Machine) : Machine :=
  let m := set_locals 0 (array_get (val m) i) m in
  set_history (control_calls m) (VOLUME_reads m ++ [i]) m.

(** Since the [c]-th averaged reading the capture loop has either not
    sampled yet, or the candidate is the sign-corrected last sample. *)
Definition captured (env : Env) (c : nat) (m : Machine) : Prop :=
  (c <= n_units m)%nat
  /\ (flag m <> 0 ->
      (c < n_units m)%nat
      /\ localValue m
         = Int.to_long (scale_get_units env (n_units m - 1) * -1)).

(** The part of [setup] that follows the calibration branch. *)
Definition after_load (env : Env) (fuel : nat) : comp unit :=
  mo <- digitalRead env MODE ;;
  d <- digitalRead env DISPENSE ;;
  (if Z.lxor mo d =? 1 then inspectContents env fuel else ret tt) ;;
  m <- get ;;
  updateMode (index m).

(** No button at power-up; the MODE button is tapped three times, each
    tap followed by twelve released polls; then the DISPENSE button is
    pressed once while the scale reads 2 (sign-corrected: -2). *)
Definition manual_env : Env :=
  {| scale_read := fun _ => 2;
     scale_get_units := fun _ => 0;
     pin_DISPENSE := fun k => negb (k =? 41)%nat;
     pin_MODE := fun k => negb ((k =? 1)%nat || (k =? 14)%nat || (k =? 27)%nat) |}.

(** Two passes of the dispense loop: the first stays below 220000, the
    second sorts to [218500; 219000; 221000]. *)
Definition dispense_env : Env :=
  {| scale_read := fun k =>
       nth k [-219000; -218000; -218500; -221000; -219000; -218500] 0;
     scale_get_units := fun _ => 0;
     pin_DISPENSE := fun _ => false;
     pin_MODE := fun _ => true |}.

(** The DISPENSE button is released at the fourth poll. *)
Definition release_env : Env :=
  {| scale_read := fun _ => 0;
     scale_get_units := fun _ => 0;
     pin_DISPENSE := fun k => (3 <=? k)%nat;
     pin_MODE := fun _ => true |}.

(** The MODE button is never pressed, nor the DISPENSE button. *)
Definition idle_env : Env :=
  {| scale_read := fun _ => 0;
     scale_get_units := fun _ => 0;
     pin_DISPENSE := fun _ => true;
     pin_MODE := fun _ => true |}.

(** Both buttons held at power-up; the MODE button is tapped once to
    select the second preset, DISPENSE confirms; the MODE button is then
    held for two samples of the capture loop. *)
Definition calibration_env : Env :=
  {| scale_read := fun _ => 0;
     scale_get_units := fun k => - (240000 + Z.of_nat k);
     pin_DISPENSE := fun k => negb ((k =? 0)%nat || (k =? 1)%nat || (k =? 15)%nat);
     pin_MODE := fun k =>
       negb ((k =? 0)%nat || (k =? 2)%nat || (k =? 16)%nat || (k =? 17)%nat) |}.

(** Largest raw reading of the amplifier at every call; the DISPENSE
    button is pressed from its third poll on. *)
Definition overflow_env : Env :=
  {| scale_read := fun _ => 8388607;
     scale_get_units := fun _ => 0;
     pin_DISPENSE := fun k => (k <? 2)%nat;
     pin_MODE := fun _ => true |}.

(** Raw reading -1 at every call, no button pressed. *)
Definition underflow_env : Env :=
  {| scale_read := fun _ => -1;
     scale_get_units := fun _ => 0;
     pin_DISPENSE := fun _ => true;
     pin_MODE := fun _ => true |}.

(** The MODE button is released for 13 polls from power-up, then held. *)
Definition press_env : Env :=
  {| scale_read := fun _ => 0;
     scale_get_units := fun _ => 0;
     pin_DISPENSE := fun _ => true;
     pin_MODE := fun k => (k <? 13)%nat |}.

(** The MODE button is tapped every 13 polls (one LOW poll, twelve HIGH
    polls); the DISPENSE button is not pressed. *)
Definition cycle_env : Env :=
  {| scale_read := fun _ => 0;
     scale_get_units := fun _ => 0;
     pin_DISPENSE := fun _ => true;
     pin_MODE := fun k => negb (k mod 13 =? 1)%nat |}.

(** The calibration branch at the head of [setup]. *)
Definition setup_prefix (env : Env) (fuel : nat) : comp unit :=
  d <- digitalRead env DISPENSE ;;
  both <- (if d =? 0 then mo <- digitalRead env MODE ;; ret (mo =? 0)
           else ret false) ;;
  if both : bool then
    s <- selection env fuel ;;
    modify (set_selectedMode s) ;;
    calibrateFunction env fuel s
  else ret tt.

(** The table in memory holds what the three EEPROM slots decode to, and
    -1 for Manual. *)
Definition mirrors (m : Machine) : Prop :=
  val m = [EEPROMRead_cells 0 (eeprom m); EEPROMRead_cells 4 (eeprom m);
           EEPROMRead_cells 8 (eeprom m); -1].

(** Every index at which [VOLUME] has been read is within the array. *)
Definition in_bounds (m : Machine) : Prop :=
  Forall (fun i => 0 <= i < 3) (VOLUME_reads m).

(** [in_bounds], with a mode index that is one of 0, 1, 2, 3. *)
Definition sound (m : Machine) : Prop := in_bounds m /\ 0 <= index m <= 3.

(** The history of [VOLUME] reads has only been extended. *)
Definition grows : relation Machine :=
  fun m m' => exists l, VOLUME_reads m' = VOLUME_reads m ++ l.

(** Relay and indicator. *)
Definition outputs (m : Machine) : bool * bool := (RELAY_PIN m, LED_BUILTIN m).

(** Relay and indicator are both off. *)
Definition off (m : Machine) : Prop := outputs m = (false, false).

(** What [inspectContents] must leave alone. *)
Definition inspected (m : Machine) :=
  (val m, eeprom m, index m, selectedMode m, outputs m, control_calls m,
   n_units m).

(** [on_return P c Q]: started where [P] holds, [c] returns only where
    [Q] holds. *)
Definition on_return {A} (P : Machine -> Prop) (c : comp A)
    (Q : Machine -> Prop) : Prop :=
  forall m a m', P m -> c m = Done a m' -> Q m'.

(** * Properties *)

(** ** EEPROM codec *)

Lemma byte_of_long (v k : Z) :
  0 <= k -> Int.to_byte (Z.land (Z.shiftr v k) 0xFF) = (v / 2 ^ k) mod 256.
Proof.
  intros Hk. unfold Int.to_byte.
  change 0xFF with (Z.ones 8). rewrite Z.land_ones by lia.
  rewrite Z.shiftr_div_pow2 by lia.
  change (2 ^ 8) with 256. rewrite Z.mod_mod by lia. reflexivity.
Qed.

Lemma EEPROM_read_write_eq a b e : EEPROM.read (EEPROM.write a b e) a = b.
Proof. unfold EEPROM.read, EEPROM.write. by rewrite lookup_insert_eq. Qed.

Lemma EEPROM_read_write_ne a a' b e :
  a <> a' -> EEPROM.read (EEPROM.write a b e) a' = EEPROM.read e a'.
Proof. intros. unfold EEPROM.read, EEPROM.write. by rewrite lookup_insert_ne. Qed.

Lemma EEPROMWrite_cells_layout a v e :
  let e' := EEPROMWrite_cells a v e in
  EEPROM.read e' a = v mod 256
  /\ EEPROM.read e' (a + 1) = (v / 2 ^ 8) mod 256
  /\ EEPROM.read e' (a + 2) = (v / 2 ^ 16) mod 256
  /\ EEPROM.read e' (a + 3) = (v / 2 ^ 24) mod 256.
Proof.
  cbv zeta. unfold EEPROMWrite_cells.
  rewrite !byte_of_long by lia.
  replace (Int.to_byte (Z.land v 255)) with (v mod 256).
  2:{ unfold Int.to_byte. change 255 with (Z.ones 8).
      rewrite Z.land_ones by lia. change (2 ^ 8) with 256.
      by rewrite Z.mod_mod by lia. }
  repeat split.
  - rewrite !(EEPROM_read_write_ne (a + _) a) by lia.
    apply EEPROM_read_write_eq.
  - rewrite !(EEPROM_read_write_ne (a + _) (a + 1)) by lia.
    apply EEPROM_read_write_eq.
  - rewrite !(EEPROM_read_write_ne (a + _) (a + 2)) by lia.
    apply EEPROM_read_write_eq.
  - apply EEPROM_read_write_eq.
Qed.

Lemma EEPROMRead_cells_bytes a e b0 b1 b2 b3 :
  EEPROM.read e a = b0 -> EEPROM.read e (a + 1) = b1 ->
  EEPROM.read e (a + 2) = b2 -> EEPROM.read e (a + 3) = b3 ->
  0 <= b0 < 256 -> 0 <= b1 < 256 -> 0 <= b2 < 256 -> 0 <= b3 < 256 ->
  EEPROMRead_cells a e
  = Int.to_long (b0 + 2 ^ 8 * b1 + 2 ^ 16 * b2 + 2 ^ 24 * b3).
Proof.
  intros E0 E1 E2 E3 H0 H1 H2 H3. unfold EEPROMRead_cells.
  rewrite E0, E1, E2, E3.
  unfold Int.long_shl. rewrite !Z.shiftl_mul_pow2 by lia.
  change 0xFF with (Z.ones 8). change 0xFFFF with (Z.ones 16).
  change 0xFFFFFF with (Z.ones 24). change 0xFFFFFFFF with (Z.ones 32).
  rewrite !Z.land_ones by lia.
  unfold Int.to_long, Int.to_ulong.
  f_equal. f_equal.
  change (2 ^ 0) with 1. change (2 ^ 8) with 256. change (2 ^ 16) with 65536.
  change (2 ^ 24) with 16777216. change (2 ^ 31) with 2147483648.
  change (2 ^ 32) with 4294967296.
  Z.div_mod_to_equations. lia.
Qed.

Lemma to_long_id v : Int.long_range v -> Int.to_long v = v.
Proof.
  unfold Int.long_range, Int.to_long. intros H.
  rewrite Z.mod_small; lia.
Qed.

Lemma to_long_range z : Int.long_range (Int.to_long z).
Proof.
  unfold Int.long_range, Int.to_long.
  pose proof (Z.mod_pos_bound (z + 2 ^ 31) (2 ^ 32)). lia.
Qed.

Lemma to_long_mod z : Int.to_long (z mod 2 ^ 32) = Int.to_long z.
Proof.
  unfold Int.to_long.
  rewrite Zplus_mod_idemp_l. reflexivity.
Qed.

Lemma long_bytes v :
  v mod 256 + 2 ^ 8 * ((v / 2 ^ 8) mod 256) + 2 ^ 16 * ((v / 2 ^ 16) mod 256)
  + 2 ^ 24 * ((v / 2 ^ 24) mod 256) = v mod 2 ^ 32.
Proof.
  change (2 ^ 8) with 256. change (2 ^ 16) with 65536.
  change (2 ^ 24) with 16777216. change (2 ^ 32) with 4294967296.
  Z.div_mod_to_equations. lia.
Qed.

Lemma EEPROM_cells_round_trip a v e :
  Int.long_range v -> EEPROMRead_cells a (EEPROMWrite_cells a v e) = v.
Proof.
  intros Hv.
  destruct (EEPROMWrite_cells_layout a v e) as (L0 & L1 & L2 & L3).
  rewrite (EEPROMRead_cells_bytes _ _ _ _ _ _ L0 L1 L2 L3)
    by (apply Z.mod_pos_bound; lia).
  rewrite long_bytes, to_long_mod. by apply to_long_id.
Qed.

(** C3. A [long] written by [EEPROMWrite] at an address is read back
    unchanged by [EEPROMRead] at that address, negative values and -1
    included, and its four bytes are laid out least significant first.
    The addresses are those whose four cells have [int] addresses. *)
Theorem EEPROM_round_trip (a v : Z) (m : Machine) :
  0 <= a <= 32764 ->
  Int.long_range v ->
  let m' := state_of (EEPROMWrite a v m) in
  EEPROMRead a m' = Done v m'
  /\ EEPROM.read (eeprom m') a = v mod 256
  /\ EEPROM.read (eeprom m') (a + 1) = (v / 2 ^ 8) mod 256
  /\ EEPROM.read (eeprom m') (a + 2) = (v / 2 ^ 16) mod 256
  /\ EEPROM.read (eeprom m') (a + 3) = (v / 2 ^ 24) mod 256.
Proof.
  intros _ Hv. cbv zeta.
  unfold EEPROMWrite, EEPROMRead, modify, bind, get, ret. cbn.
  destruct (EEPROMWrite_cells_layout a v (eeprom m)) as (L0 & L1 & L2 & L3).
  repeat split; try assumption.
  f_equal. by apply EEPROM_cells_round_trip.
Qed.

Lemma EEPROM_round_trip_witness :
  EEPROMRead 4 (state_of (EEPROMWrite 4 (-1) (power_on ∅)))
  = Done (-1) (state_of (EEPROMWrite 4 (-1) (power_on ∅))).
Proof.
  apply (EEPROM_round_trip 4 (-1) (power_on ∅)).
  - lia.
  - unfold Int.long_range. lia.
Defined.

(** ** The median filter of [control] *)

Lemma rearrange_three (a b c : Z) :
  exists x y z,
    rearrange [a; b; c] = [x; y; z]
    /\ x <= y <= z
    /\ Permutation [a; b; c] [x; y; z]
    /\ z = Z.max a (Z.max b c).
Proof.
  unfold rearrange, inner_loop, n, swap_step. cbn.
  destruct (Z.gtb_spec a b), (Z.gtb_spec b c), (Z.gtb_spec a c); cbn;
    repeat match goal with
           | |- context [?x >? ?y] => destruct (Z.gtb_spec x y); cbn
           end;
    try lia.
  all: eexists _, _, _; (split; [reflexivity|]); (split; [lia|]);
    (split; [| lia]).
  all: solve
    [ reflexivity
    | apply perm_swap
    | apply perm_skip, perm_swap
    | etransitivity; [apply perm_swap |]; apply perm_skip, perm_swap
    | etransitivity; [apply perm_skip, perm_swap |]; apply perm_swap
    | apply (Permutation_rev [_; _; _]) ].
Qed.

Lemma median_pass_eq env m :
  median_pass env m
  = Done (representative env (n_scale m) 0)
         (set_polls (3 + n_scale m) (n_units m) (n_DISPENSE m) (n_MODE m) m).
Proof.
  unfold representative.
  replace (n_scale m + 3 * 0 + 0)%nat with (n_scale m) by lia.
  replace (n_scale m + 3 * 0 + 1)%nat with (S (n_scale m)) by lia.
  replace (n_scale m + 3 * 0 + 2)%nat with (S (S (n_scale m))) by lia.
  reflexivity.
Qed.

(** C1. A pass of the thresholded dispense loop sorts its three fresh
    sign-corrected readings in ascending order and takes the element at
    0-based index (n+1)/2 = 2 of the sorted array, which is the largest
    of the three, and that is the value the loop compares with the
    threshold.  It is not the median at index 1: of 221000, 219000 and
    218500 the pass takes 221000, the median is 219000. *)
Theorem median_pass_takes_largest (env : Env) (m : Machine) :
  let r0 := Int.to_long (-1 * scale_read env (n_scale m)) in
  let r1 := Int.to_long (-1 * scale_read env (1 + n_scale m)) in
  let r2 := Int.to_long (-1 * scale_read env (2 + n_scale m)) in
  median_index = 2%nat
  /\ (exists x y z,
        rearrange [r0; r1; r2] = [x; y; z]
        /\ x <= y <= z
        /\ Permutation [r0; r1; r2] [x; y; z]
        /\ z = Z.max r0 (Z.max r1 r2)
        /\ median_pass env m
           = Done z (set_polls (3 + n_scale m) (n_units m) (n_DISPENSE m)
                               (n_MODE m) m)
        /\ forall t fuel,
            median_loop env (S fuel) t m
            = (if Int.long_sub t z >? 0 then median_loop env fuel t
               else ret tt)
                (set_polls (3 + n_scale m) (n_units m) (n_DISPENSE m)
                           (n_MODE m) m))
  /\ array_get (rearrange [221000; 219000; 218500]) (Z.of_nat median_index)
     = 221000
  /\ array_get (rearrange [221000; 219000; 218500]) 1 = 219000.
Proof.
  cbv zeta. split; [reflexivity |]. split; [| split; reflexivity].
  destruct (rearrange_three
              (Int.to_long (-1 * scale_read env (n_scale m)))
              (Int.to_long (-1 * scale_read env (1 + n_scale m)))
              (Int.to_long (-1 * scale_read env (2 + n_scale m))))
    as (x & y & z & Hs & Hle & Hp & Hz).
  assert (E : median_pass env m
              = Done z (set_polls (3 + n_scale m) (n_units m) (n_DISPENSE m)
                                  (n_MODE m) m)).
  { rewrite median_pass_eq. unfold representative.
    replace (n_scale m + 3 * 0 + 0)%nat with (n_scale m) by lia.
    replace (n_scale m + 3 * 0 + 1)%nat with (1 + n_scale m)%nat by lia.
    replace (n_scale m + 3 * 0 + 2)%nat with (2 + n_scale m)%nat by lia.
    rewrite Hs. reflexivity. }
  exists x, y, z.
  split; [exact Hs |]. split; [lia |]. split; [exact Hp |].
  split; [exact Hz |]. split; [exact E |].
  intros t fuel. cbn [median_loop]. unfold bind. rewrite E.
  destruct (Int.long_sub t z >? 0); reflexivity.
Qed.

(** ** Sequencing *)

Lemma bind_Done {A B} (c : comp A) (k : A -> comp B) m a m' :
  c m = Done a m' -> bind c k m = k a m'.
Proof. unfold bind. by intros ->. Qed.

Lemma bind_Spin {A B} (c : comp A) (k : A -> comp B) m m' :
  c m = Spin m' -> bind c k m = Spin m'.
Proof. unfold bind. by intros ->. Qed.

Lemma representative_shift env c j :
  representative env (3 + c) j = representative env c (S j).
Proof.
  unfold representative.
  replace (3 + c + 3 * j + 0)%nat with (c + 3 * S j + 0)%nat by lia.
  replace (3 + c + 3 * j + 1)%nat with (c + 3 * S j + 1)%nat by lia.
  replace (3 + c + 3 * j + 2)%nat with (c + 3 * S j + 2)%nat by lia.
  reflexivity.
Qed.

Lemma representative_max env c j :
  let reading k := Int.to_long (-1 * scale_read env (c + 3 * j + k)) in
  representative env c j
  = Z.max (reading 0%nat) (Z.max (reading 1%nat) (reading 2%nat)).
Proof.
  cbv zeta. unfold representative.
  destruct (rearrange_three
              (Int.to_long (-1 * scale_read env (c + 3 * j + 0)))
              (Int.to_long (-1 * scale_read env (c + 3 * j + 1)))
              (Int.to_long (-1 * scale_read env (c + 3 * j + 2))))
    as (x & y & z & -> & _ & _ & ->).
  reflexivity.
Qed.

(** ** The thresholded dispense loop *)

Lemma median_loop_stops env t k :
  forall fuel m,
    (k < fuel)%nat ->
    (forall j, (j < k)%nat ->
               Int.long_sub t (representative env (n_scale m) j) > 0) ->
    ~ Int.long_sub t (representative env (n_scale m) k) > 0 ->
    median_loop env fuel t m
    = Done tt (set_polls (3 * (k + 1) + n_scale m) (n_units m)
                         (n_DISPENSE m) (n_MODE m) m).
Proof.
  induction k as [| k IH]; intros fuel m Hfuel Hlt Hge.
  - destruct fuel as [| fuel]; [lia |]. cbn [median_loop].
    rewrite (bind_Done _ _ _ _ _ (median_pass_eq env m)).
    destruct (Z.gtb_spec (Int.long_sub t (representative env (n_scale m) 0)) 0);
      [lia | reflexivity].
  - destruct fuel as [| fuel]; [lia |]. cbn [median_loop].
    rewrite (bind_Done _ _ _ _ _ (median_pass_eq env m)).
    pose proof (Hlt 0%nat ltac:(lia)) as H0.
    destruct (Z.gtb_spec (Int.long_sub t (representative env (n_scale m) 0)) 0);
      [| lia].
    rewrite IH.
    + cbn. unfold set_polls. cbn. f_equal. f_equal. lia.
    + lia.
    + intros j Hj. cbn [n_scale set_polls]. rewrite representative_shift.
      apply Hlt. lia.
    + cbn [n_scale set_polls]. rewrite representative_shift. exact Hge.
Qed.

Lemma median_loop_spins env t :
  forall fuel m,
    (forall j, (j < fuel)%nat ->
               Int.long_sub t (representative env (n_scale m) j) > 0) ->
    median_loop env fuel t m
    = Spin (set_polls (3 * fuel + n_scale m) (n_units m)
                      (n_DISPENSE m) (n_MODE m) m).
Proof.
  induction fuel as [| fuel IH]; intros m Hlt.
  - cbn. unfold set_polls. by destruct m.
  - cbn [median_loop].
    rewrite (bind_Done _ _ _ _ _ (median_pass_eq env m)).
    pose proof (Hlt 0%nat ltac:(lia)) as H0.
    destruct (Z.gtb_spec (Int.long_sub t (representative env (n_scale m) 0)) 0);
      [| lia].
    rewrite IH.
    + cbn. unfold set_polls. cbn. f_equal. f_equal. lia.
    + intros j Hj. cbn [n_scale set_polls]. rewrite representative_shift.
      apply Hlt. lia.
Qed.

Lemma long_sub_positive t r :
  Int.long_range (t - r) -> Int.long_sub t r > 0 <-> r < t.
Proof.
  intros H. unfold Int.long_sub. rewrite to_long_id by assumption. lia.
Qed.

Lemma representative_range env c j :
  (forall k, hx711_range (scale_read env k)) ->
  - 2 ^ 23 < representative env c j <= 2 ^ 23.
Proof.
  intros H. rewrite representative_max. cbv zeta.
  pose proof (H (c + 3 * j + 0)%nat) as H0.
  pose proof (H (c + 3 * j + 1)%nat) as H1.
  pose proof (H (c + 3 * j + 2)%nat) as H2.
  unfold hx711_range in *.
  rewrite !to_long_id by (unfold Int.long_range; lia).
  lia.
Qed.

Lemma control_thresholded env fuel t m :
  t <> -1 ->
  control env fuel t m
  = bind (median_loop env fuel t)
         (fun _ => digitalWrite LED false ;; digitalWrite RELAY false ;;
                   m <- get ;; updateMode (index m))
         (logged t m).
Proof.
  intros Ht. unfold control.
  destruct (Z.eqb_spec t (-1)); [contradiction |]. reflexivity.
Qed.

Lemma control_manual env fuel m :
  control env fuel (-1) m
  = bind (manual_loop env fuel)
         (fun _ => digitalWrite LED false ;; digitalWrite RELAY false ;;
                   m <- get ;; updateMode (index m))
         (logged (-1) m).
Proof. reflexivity. Qed.

Lemma updateMode_polls i m :
  let m' := state_of (updateMode i m) in
  updateMode i m = Done tt m'
  /\ n_scale m' = n_scale m /\ n_units m' = n_units m
  /\ n_DISPENSE m' = n_DISPENSE m /\ n_MODE m' = n_MODE m
  /\ RELAY_PIN m' = RELAY_PIN m /\ LED_BUILTIN m' = LED_BUILTIN m.
Proof. unfold updateMode. destruct (i =? 3); cbn; repeat split. Qed.

(** X15. For a threshold [t] other than -1, [control t] repeats the median
    pass exactly while [t - representative > 0] as the sketch computes
    it: it returns after pass [k] when that pass is the first whose
    difference is not positive, having read three samples per pass, with
    relay and indicator off; while every pass so far has a positive
    difference it is still dispensing.  Where the 32-bit subtraction does
    not overflow, and so for every threshold within 2^30 of zero and raw
    24-bit readings, the difference is positive exactly when the
    representative is below [t], so the loop stops at the first pass
    whose representative reaches or exceeds [t].  With [t = 220000] and a
    triple that sorts to [218500; 219000; 221000] the representative is
    221000 and the loop stops after that pass. *)
Theorem dispense_loop_threshold (env : Env) (t : Z) (m : Machine) :
  t <> -1 ->
  let rep := representative env (n_scale m) in
  (forall fuel k,
      (k < fuel)%nat ->
      (forall j, (j < k)%nat -> Int.long_sub t (rep j) > 0) ->
      ~ Int.long_sub t (rep k) > 0 ->
      exists m',
        control env fuel t m = Done tt m'
        /\ n_scale m' = (3 * (k + 1) + n_scale m)%nat
        /\ RELAY_PIN m' = false /\ LED_BUILTIN m' = false)
  /\ (forall fuel,
         (forall j, (j < fuel)%nat -> Int.long_sub t (rep j) > 0) ->
         exists m',
           control env fuel t m = Spin m'
           /\ n_scale m' = (3 * fuel + n_scale m)%nat
           /\ RELAY_PIN m' = RELAY_PIN m /\ LED_BUILTIN m' = LED_BUILTIN m)
  /\ (forall j, Int.long_range (t - rep j) ->
                Int.long_sub t (rep j) > 0 <-> rep j < t)
  /\ ((forall k, hx711_range (scale_read env k)) ->
      - 2 ^ 30 <= t <= 2 ^ 30 ->
      forall j, Int.long_sub t (rep j) > 0 <-> rep j < t)
  /\ (t = 220000 ->
      rearrange [Int.to_long (-1 * scale_read env (n_scale m));
                 Int.to_long (-1 * scale_read env (1 + n_scale m));
                 Int.to_long (-1 * scale_read env (2 + n_scale m))]
      = [218500; 219000; 221000] ->
      rep 0%nat = 221000
      /\ forall fuel, exists m',
           control env (S fuel) t m = Done tt m'
           /\ n_scale m' = (3 + n_scale m)%nat).
Proof.
  intros Ht rep.
  assert (Hrep0 : rep 0%nat
                  = array_get
                      (rearrange
                         [Int.to_long (-1 * scale_read env (n_scale m));
                          Int.to_long (-1 * scale_read env (1 + n_scale m));
                          Int.to_long (-1 * scale_read env (2 + n_scale m))])
                      (Z.of_nat median_index)).
  { subst rep. unfold representative.
    replace (n_scale m + 3 * 0 + 0)%nat with (n_scale m) by lia.
    replace (n_scale m + 3 * 0 + 1)%nat with (1 + n_scale m)%nat by lia.
    replace (n_scale m + 3 * 0 + 2)%nat with (2 + n_scale m)%nat by lia.
    reflexivity. }
  split; [| split; [| split; [| split]]].
  - intros fuel k Hk Hlt Hge.
    rewrite control_thresholded by assumption.
    erewrite bind_Done
      by (apply (median_loop_stops env t k); assumption).
    cbn [bind digitalWrite modify get].
    set (m1 := set_outputs _ _ _).
    destruct (updateMode_polls (index m1) m1) as (E & Hs & _ & _ & _ & Hr & Hl).
    eexists. split; [exact E |].
    rewrite Hs, Hr, Hl. subst m1. cbn. repeat split.
  - intros fuel Hlt.
    rewrite control_thresholded by assumption.
    erewrite bind_Spin by (apply (median_loop_spins env t); assumption).
    eexists. split; [reflexivity |]. cbn. repeat split.
  - intros j. apply long_sub_positive.
  - intros Hraw Hrange j. apply long_sub_positive.
    pose proof (representative_range env (n_scale m) j Hraw) as Hr.
    fold rep in Hr. unfold Int.long_range. lia.
  - intros -> Hsorted.
    assert (E : rep 0%nat = 221000) by (rewrite Hrep0, Hsorted; reflexivity).
    split; [exact E |]. intros fuel.
    rewrite control_thresholded by assumption.
    erewrite bind_Done.
    2:{ apply (median_loop_stops env 220000 0); [lia | intros; lia |].
        change (~ Int.long_sub 220000 (rep 0%nat) > 0).
        rewrite E. vm_compute. discriminate. }
    cbn [bind digitalWrite modify get].
    set (m1 := set_outputs _ _ _).
    destruct (updateMode_polls (index m1) m1) as (E' & Hs & _).
    eexists. split; [exact E' |].
    rewrite Hs. subst m1. reflexivity.
Qed.

Lemma control_underflow fuel m :
  exists m', control underflow_env fuel (-2147483648) m = Spin m'.
Proof.
  rewrite control_thresholded by lia.
  erewrite bind_Spin; [by eexists |].
  apply (median_loop_spins underflow_env). intros j _. reflexivity.
Qed.

(** C2. The dispense loop of [control] does not compare the
    representative with the threshold: it tests the sign of the 32-bit
    difference [localVal - medianValue], which overflows.  With slot 0 of
    the EEPROM holding 2147483647 and raw readings of 8388607
    (sign-corrected -8388607), the first iteration of [loop] with DISPENSE
    pressed calls [control(2147483647)]; the representative of its first
    pass, -8388607, is below the threshold, the difference wraps to
    -2139095042, and [control] returns after that one pass with the relay
    off.  In the other direction [control(-2147483648)] on sign-corrected
    readings of 1 never returns, though every representative exceeds the
    threshold. *)
Theorem dispense_loop_overflow :
  let e := EEPROMWrite_cells 0 2147483647 ∅ in
  let m0 := state_of (setup overflow_env 2 (power_on e)) in
  let m1 := state_of (loop overflow_env 2 m0) in
  returns (setup overflow_env 2 (power_on e)) = true
  /\ array_get (val m0) (index m0) = 2147483647
  /\ dispense_condition overflow_env m0 = true
  /\ representative overflow_env (S (n_scale m0)) 0 = -8388607
  /\ Int.long_sub 2147483647 (-8388607) = -2139095042
  /\ returns (loop overflow_env 2 m0) = true
  /\ control_calls m1 = [2147483647]
  /\ n_scale m1 = 4%nat
  /\ RELAY_PIN m1 = false
  /\ (forall j, representative underflow_env 0 j = 1)
  /\ (forall fuel,
         returns (control underflow_env fuel (-2147483648) (power_on ∅))
         = false).
Proof.
  cbv zeta.
  split; [vm_compute; reflexivity |].
  split; [vm_compute; reflexivity |].
  split; [vm_compute; reflexivity |].
  split; [vm_compute; reflexivity |].
  split; [vm_compute; reflexivity |].
  split; [vm_compute; reflexivity |].
  split; [vm_compute; reflexivity |].
  split; [vm_compute; reflexivity |].
  split; [vm_compute; reflexivity |].
  split; [intros j; reflexivity |].
  intros fuel.
  destruct (control_underflow fuel (power_on ∅)) as [m' ->]. reflexivity.
Qed.

(** ** Manual dispensing *)

Lemma manual_loop_stops env k :
  forall fuel m,
    (k < fuel)%nat ->
    (forall j, (j < k)%nat -> pin_DISPENSE env (n_DISPENSE m + j) = false) ->
    pin_DISPENSE env (n_DISPENSE m + k) = true ->
    manual_loop env fuel m
    = Done tt (set_polls (n_scale m) (n_units m) (S k + n_DISPENSE m)
                         (n_MODE m) m).
Proof.
  induction k as [| k IH]; intros fuel m Hfuel Hlow Hhigh;
    (destruct fuel as [| fuel]; [lia |]); cbn [manual_loop];
    unfold bind, digitalRead.
  - rewrite Nat.add_0_r in Hhigh. rewrite Hhigh. reflexivity.
  - pose proof (Hlow 0%nat ltac:(lia)) as H0. rewrite Nat.add_0_r in H0.
    rewrite H0. cbn [Z.b2z Z.eqb].
    rewrite IH.
    + unfold set_polls. cbn. do 2 f_equal. lia.
    + lia.
    + intros j Hj. cbn [n_DISPENSE set_polls].
      replace (S (n_DISPENSE m) + j)%nat with (n_DISPENSE m + S j)%nat by lia.
      apply Hlow. lia.
    + cbn [n_DISPENSE set_polls].
      replace (S (n_DISPENSE m) + k)%nat with (n_DISPENSE m + S k)%nat by lia.
      exact Hhigh.
Qed.

Lemma manual_loop_spins env :
  forall fuel m,
    (forall j, (j < fuel)%nat -> pin_DISPENSE env (n_DISPENSE m + j) = false) ->
    manual_loop env fuel m
    = Spin (set_polls (n_scale m) (n_units m) (fuel + n_DISPENSE m)
                      (n_MODE m) m).
Proof.
  induction fuel as [| fuel IH]; intros m Hlow.
  - cbn. unfold set_polls. by destruct m.
  - cbn [manual_loop]. unfold bind, digitalRead.
    pose proof (Hlow 0%nat ltac:(lia)) as H0. rewrite Nat.add_0_r in H0.
    rewrite H0. cbn [Z.b2z Z.eqb].
    rewrite IH.
    + unfold set_polls. cbn. do 2 f_equal. lia.
    + intros j Hj. cbn [n_DISPENSE set_polls].
      replace (S (n_DISPENSE m) + j)%nat with (n_DISPENSE m + S j)%nat by lia.
      apply Hlow. lia.
Qed.

Lemma manual_loop_returns_inv env :
  forall fuel m m',
    manual_loop env fuel m = Done tt m' ->
    exists k, (k < fuel)%nat
              /\ pin_DISPENSE env (n_DISPENSE m + k) = true
              /\ forall j, (j < k)%nat ->
                           pin_DISPENSE env (n_DISPENSE m + j) = false.
Proof.
  induction fuel as [| fuel IH]; intros m m' H; [discriminate |].
  cbn [manual_loop] in H. unfold bind, digitalRead in H.
  destruct (pin_DISPENSE env (n_DISPENSE m)) eqn:E; cbn [Z.b2z Z.eqb] in H.
  - exists 0%nat. rewrite Nat.add_0_r. repeat split; [lia | assumption | lia].
  - apply IH in H as (k & Hk & Hhigh & Hlow). cbn [n_DISPENSE set_polls] in *.
    exists (S k). split; [lia |]. split.
    + replace (n_DISPENSE m + S k)%nat with (S (n_DISPENSE m) + k)%nat by lia.
      exact Hhigh.
    + intros [| j] Hj; [by rewrite Nat.add_0_r |].
      replace (n_DISPENSE m + S j)%nat with (S (n_DISPENSE m) + j)%nat by lia.
      apply Hlow. lia.
Qed.

Lemma manual_loop_env env env' :
  (forall k, pin_DISPENSE env' k = pin_DISPENSE env k) ->
  forall fuel m, manual_loop env' fuel m = manual_loop env fuel m.
Proof.
  intros Hpin. induction fuel as [| fuel IH]; intros m; [reflexivity |].
  cbn [manual_loop]. unfold bind, digitalRead. rewrite Hpin.
  destruct (Z.b2z (pin_DISPENSE env (n_DISPENSE m)) =? 0); [apply IH | reflexivity].
Qed.

Lemma manual_loop_polls env :
  forall fuel m,
    n_scale (state_of (manual_loop env fuel m)) = n_scale m
    /\ n_units (state_of (manual_loop env fuel m)) = n_units m.
Proof.
  induction fuel as [| fuel IH]; intros m; [by split |].
  cbn [manual_loop]. unfold bind, digitalRead.
  destruct (Z.b2z (pin_DISPENSE env (n_DISPENSE m)) =? 0); [| by split].
  apply (IH (set_polls _ _ _ _ m)).
Qed.

(** C4. [control(-1)] does not depend on the weight sensor: its outcome
    is the same under every environment with the same DISPENSE levels,
    and it performs no read of the scale.  It returns at the first poll
    that finds the DISPENSE pin HIGH (button released), with relay and
    indicator off, and only then; if no poll ever finds the pin HIGH it
    never returns, whatever the fuel. *)
Theorem manual_dispense (env : Env) (m : Machine) :
  (forall env',
      (forall k, pin_DISPENSE env' k = pin_DISPENSE env k) ->
      forall fuel, control env' fuel (-1) m = control env fuel (-1) m)
  /\ (forall fuel,
         n_scale (state_of (control env fuel (-1) m)) = n_scale m
         /\ n_units (state_of (control env fuel (-1) m)) = n_units m)
  /\ (forall fuel k,
         (k < fuel)%nat ->
         (forall j, (j < k)%nat -> pin_DISPENSE env (n_DISPENSE m + j) = false) ->
         pin_DISPENSE env (n_DISPENSE m + k) = true ->
         exists m',
           control env fuel (-1) m = Done tt m'
           /\ n_DISPENSE m' = (S k + n_DISPENSE m)%nat
           /\ RELAY_PIN m' = false /\ LED_BUILTIN m' = false)
  /\ (forall fuel m',
         control env fuel (-1) m = Done tt m' ->
         exists k,
           (k < fuel)%nat
           /\ pin_DISPENSE env (n_DISPENSE m + k) = true
           /\ forall j, (j < k)%nat ->
                        pin_DISPENSE env (n_DISPENSE m + j) = false)
  /\ ((forall j, pin_DISPENSE env (n_DISPENSE m + j) = false) ->
      forall fuel, returns (control env fuel (-1) m) = false).
Proof.
  split; [| split; [| split; [| split]]].
  - intros env' Hpin fuel. rewrite !control_manual.
    unfold bind. rewrite (manual_loop_env env env' Hpin). reflexivity.
  - intros fuel. rewrite control_manual.
    pose proof (manual_loop_polls env fuel (logged (-1) m)) as Hp.
    unfold bind.
    destruct (manual_loop env fuel (logged (-1) m)) as [[] m1 | m1];
      cbn [state_of] in Hp.
    + cbn [digitalWrite modify get].
      set (m2 := set_outputs _ _ _).
      destruct (updateMode_polls (index m2) m2) as (_ & Hs & Hu & _).
      rewrite Hs, Hu. subst m2. exact Hp.
    + exact Hp.
  - intros fuel k Hk Hlow Hhigh. rewrite control_manual.
    erewrite bind_Done by (apply (manual_loop_stops env k); assumption).
    cbn [bind digitalWrite modify get].
    set (m1 := set_outputs _ _ _).
    destruct (updateMode_polls (index m1) m1) as (E & _ & _ & Hd & _ & Hr & Hl).
    eexists. split; [exact E |].
    rewrite Hd, Hr, Hl. subst m1. cbn. repeat split.
  - intros fuel m' H. rewrite control_manual in H. unfold bind in H.
    destruct (manual_loop env fuel (logged (-1) m)) as [[] m1 | m1] eqn:E;
      [| discriminate].
    apply manual_loop_returns_inv in E. exact E.
  - intros Hlow fuel. rewrite control_manual.
    erewrite bind_Spin; [reflexivity |].
    apply manual_loop_spins. intros j _. apply Hlow.
Qed.

(** ** The debouncer *)

Lemma testbit_0xe000 i :
  0 <= i -> Z.testbit 0xe000 i = (13 <=? i) && (i <? 16).
Proof.
  intros Hi. change 0xe000 with (Z.shiftl (Z.ones 3) 13).
  rewrite Z.shiftl_spec by lia.
  destruct (Z.leb_spec 13 i).
  - rewrite Z.testbit_ones_nonneg by lia. cbn.
    destruct (Z.ltb_spec (i - 13) 3), (Z.ltb_spec i 16); lia || reflexivity.
  - by rewrite Z.testbit_neg_r by lia.
Qed.

Lemma testbit_0xf000 i :
  0 <= i -> Z.testbit 0xf000 i = (12 <=? i) && (i <? 16).
Proof.
  intros Hi. change 0xf000 with (Z.shiftl (Z.ones 4) 12).
  rewrite Z.shiftl_spec by lia.
  destruct (Z.leb_spec 12 i).
  - rewrite Z.testbit_ones_nonneg by lia. cbn.
    destruct (Z.ltb_spec (i - 12) 4), (Z.ltb_spec i 16); lia || reflexivity.
  - by rewrite Z.testbit_neg_r by lia.
Qed.

Lemma testbit_lnot level i :
  0 <= i -> Z.testbit (Int.lnot (Z.b2z level)) i = (i =? 0) && negb level.
Proof.
  intros Hi. destruct level; cbn.
  - rewrite Z.bits_0. by rewrite andb_false_r.
  - destruct (Z.eqb_spec i 0) as [-> | Hne]; [reflexivity |].
    change 1 with (Z.ones 1). rewrite Z.testbit_ones_nonneg by lia.
    destruct (Z.ltb_spec i 1); lia || reflexivity.
Qed.

(** The register after a poll, bit by bit: the sample enters at bit 0,
    the history moves up by one, bits 13 to 15 are forced to one. *)
Lemma debounce_next_bits level s i :
  0 <= i ->
  Z.testbit (debounce_next (Z.b2z level) s) i
  = if i <? 13 then (if i =? 0 then negb level else Z.testbit s (i - 1))
    else (i <? 16).
Proof.
  intros Hi. unfold debounce_next, Int.to_u16.
  rewrite Z.testbit_mod_pow2 by lia.
  rewrite !Z.lor_spec, testbit_0xe000, testbit_lnot, Z.shiftl_spec by lia.
  destruct (Z.ltb_spec i 13), (Z.ltb_spec i 16), (Z.leb_spec 13 i),
    (Z.eqb_spec i 0); try lia; cbn.
  - subst. rewrite Z.testbit_neg_r by lia. by rewrite orb_false_r.
  - by rewrite !orb_false_r.
Qed.

(** The poll returns Triggered exactly when the sample is HIGH, the
    previous eleven samples were HIGH and the one before them was LOW. *)
Lemma debounce_triggers level s :
  debounce_out (debounce_next (Z.b2z level) s) = 1
  <-> level = true
      /\ Z.testbit s 11 = true
      /\ forall i, 0 <= i < 11 -> Z.testbit s i = false.
Proof.
  unfold debounce_out.
  destruct (Z.eqb_spec (debounce_next (Z.b2z level) s) 0xf000) as [E | E].
  - split; [intros _ | reflexivity].
    assert (B : forall i, 0 <= i ->
                Z.testbit (debounce_next (Z.b2z level) s) i
                = (12 <=? i) && (i <? 16)).
    { intros i Hi. rewrite E. by apply testbit_0xf000. }
    split; [| split].
    + specialize (B 0 ltac:(lia)). rewrite debounce_next_bits in B by lia.
      cbn in B. by destruct level.
    + specialize (B 12 ltac:(lia)). rewrite debounce_next_bits in B by lia.
      exact B.
    + intros i Hi. specialize (B (i + 1) ltac:(lia)).
      rewrite debounce_next_bits in B by lia.
      destruct (Z.ltb_spec (i + 1) 13), (Z.eqb_spec (i + 1) 0),
        (Z.leb_spec 12 (i + 1)); try lia.
      replace (i + 1 - 1) with i in B by lia. exact B.
  - split; [discriminate |]. intros (Hl & H11 & Hlow). exfalso. apply E.
    apply Z.bits_inj'. intros i Hi.
    rewrite debounce_next_bits, testbit_0xf000 by lia.
    destruct (Z.ltb_spec i 13), (Z.eqb_spec i 0), (Z.leb_spec 12 i),
      (Z.ltb_spec i 16); try lia; cbn; subst; try reflexivity.
    + replace i with 12 by lia. exact H11.
    + apply Hlow. lia.
Qed.

Lemma debounce_out_cases s : debounce_out s = 0 \/ debounce_out s = 1.
Proof. unfold debounce_out. destruct (s =? 0xf000); auto. Qed.

Lemma debounce_silent level s :
  ~ (level = true /\ Z.testbit s 11 = true
     /\ forall i, 0 <= i < 11 -> Z.testbit s i = false) ->
  debounce_out (debounce_next (Z.b2z level) s) = 0.
Proof.
  intros H. destruct (debounce_out_cases (debounce_next (Z.b2z level) s))
    as [E | E]; [exact E |].
  apply debounce_triggers in E. contradiction.
Qed.

Lemma polls_app l1 l2 s :
  polls (l1 ++ l2) s = polls l1 s ++ polls l2 (run l1 s).
Proof.
  revert s. induction l1 as [| l l1 IH]; intros s; [reflexivity |].
  cbn. by rewrite IH.
Qed.

Lemma fresh_step level k s :
  0 <= k -> fresh k s -> fresh (k + 1) (debounce_next (Z.b2z level) s).
Proof.
  intros Hk H i Hi. rewrite debounce_next_bits by lia.
  destruct (Z.ltb_spec i 13), (Z.eqb_spec i 0); try lia.
  apply H. lia.
Qed.

Lemma polls_fresh levels :
  forall k s,
    0 <= k -> fresh k s -> k + Z.of_nat (length levels) <= 12 ->
    polls levels s = repeat 0 (length levels).
Proof.
  induction levels as [| l levels IH]; intros k s Hk Hf Hlen; [reflexivity |].
  cbn [polls length repeat]. cbn [length] in Hlen. f_equal.
  - apply debounce_silent. intros (_ & H11 & _).
    rewrite Hf in H11 by lia. discriminate.
  - apply (IH (k + 1)); [lia | by apply fresh_step | lia].
Qed.

Lemma quiet_released s :
  quiet s ->
  debounce_out (debounce_next (Z.b2z true) s) = 0
  /\ quiet (debounce_next (Z.b2z true) s).
Proof.
  intros H. split.
  - apply debounce_silent. intros (_ & H11 & _).
    rewrite H in H11 by lia. discriminate.
  - intros i Hi. rewrite debounce_next_bits by lia.
    destruct (Z.ltb_spec i 13), (Z.eqb_spec i 0); try lia; try reflexivity.
    apply H. lia.
Qed.

Lemma polls_quiet a :
  forall s, quiet s ->
            polls (repeat true a) s = repeat 0 a
            /\ quiet (run (repeat true a) s).
Proof.
  induction a as [| a IH]; intros s H; [by split |].
  destruct (quiet_released s H) as (Hout & Hq).
  destruct (IH _ Hq) as (Hp & Hr).
  cbn [repeat polls]. rewrite Hout, Hp. split; [reflexivity | exact Hr].
Qed.

Lemma held_poll s :
  debounce_out (debounce_next (Z.b2z false) s) = 0
  /\ last_low 0 (debounce_next (Z.b2z false) s).
Proof.
  split.
  - apply debounce_silent. by intros (? & _).
  - split; [lia |]. split; [| intros; lia].
    by rewrite debounce_next_bits by lia.
Qed.

Lemma polls_held h :
  forall s, polls (repeat false h) s = repeat 0 h
            /\ ((0 < h)%nat -> last_low 0 (run (repeat false h) s)).
Proof.
  induction h as [| h IH]; intros s; [split; [reflexivity | lia] |].
  destruct (held_poll s) as (Hout & Hlow).
  destruct (IH (debounce_next (Z.b2z false) s)) as (Hp & Hr).
  cbn [repeat polls]. rewrite Hout, Hp. split; [reflexivity |].
  intros _. destruct h as [| h]; [exact Hlow | apply Hr; lia].
Qed.

Lemma released_after_low j s :
  last_low j s -> j < 11 ->
  debounce_out (debounce_next (Z.b2z true) s) = 0
  /\ last_low (j + 1) (debounce_next (Z.b2z true) s).
Proof.
  intros (Hj & Hset & Hclear) Hlt. split.
  - apply debounce_silent. intros (_ & _ & H).
    rewrite H in Hset by lia. discriminate.
  - split; [lia |]. split.
    + rewrite debounce_next_bits by lia.
      destruct (Z.ltb_spec (j + 1) 13), (Z.eqb_spec (j + 1) 0); try lia.
      by replace (j + 1 - 1) with j by lia.
    + intros i Hi. rewrite debounce_next_bits by lia.
      destruct (Z.ltb_spec i 13), (Z.eqb_spec i 0); try lia; try reflexivity.
      apply Hclear. lia.
Qed.

Lemma released_twelfth s :
  last_low 11 s ->
  debounce_out (debounce_next (Z.b2z true) s) = 1
  /\ quiet (debounce_next (Z.b2z true) s).
Proof.
  intros (_ & Hset & Hclear). split.
  - apply debounce_triggers. auto.
  - intros i Hi. rewrite debounce_next_bits by lia.
    destruct (Z.ltb_spec i 13), (Z.eqb_spec i 0); try lia; try reflexivity.
    apply Hclear. lia.
Qed.

Lemma polls_released_short r :
  forall j s,
    last_low j s -> j + Z.of_nat r <= 11 ->
    polls (repeat true r) s = repeat 0 r
    /\ last_low (j + Z.of_nat r) (run (repeat true r) s).
Proof.
  induction r as [| r IH]; intros j s Hlow Hle.
  - split; [reflexivity |]. by rewrite Z.add_0_r.
  - destruct (released_after_low j s Hlow) as (Hout & Hnext); [lia |].
    destruct (IH _ _ Hnext) as (Hp & Hr); [lia |].
    cbn [repeat polls]. rewrite Hout, Hp. split; [reflexivity |].
    replace (j + Z.of_nat (S r)) with (j + 1 + Z.of_nat r) by lia. exact Hr.
Qed.

Lemma run_app l1 l2 s : run (l1 ++ l2) s = run l2 (run l1 s).
Proof. unfold run. apply fold_left_app. Qed.

Lemma run_cons level levels s :
  run (level :: levels) s = run levels (debounce_next (Z.b2z level) s).
Proof. reflexivity. Qed.

Lemma polls_released_long r s :
  last_low 0 s -> (12 <= r)%nat ->
  polls (repeat true r) s = repeat 0 11 ++ 1 :: repeat 0 (r - 12)
  /\ quiet (run (repeat true r) s).
Proof.
  intros Hlow Hr.
  replace r with (11 + S (r - 12))%nat at 1 3 by lia.
  rewrite repeat_app, polls_app, run_app.
  destruct (polls_released_short 11 0 s Hlow) as (Hp & Hl); [lia |].
  rewrite Hp.
  destruct (released_twelfth _ Hl) as (Hout & Hq).
  change (repeat true (S (r - 12))) with (true :: repeat true (r - 12)).
  cbn [polls]. rewrite Hout, run_cons.
  destruct (polls_quiet (r - 12) _ Hq) as (Hp' & Hq').
  split.
  - apply (f_equal (app (repeat 0 11))). apply (f_equal (cons 1)). exact Hp'.
  - exact Hq'.
Qed.

Lemma quiet_0 : quiet 0.
Proof. intros i _. apply Z.bits_0. Qed.

Lemma triggered_app l1 l2 :
  triggered (l1 ++ l2) = (triggered l1 + triggered l2)%nat.
Proof. apply count_occ_app. Qed.

Lemma triggered_silent k : triggered (repeat 0 k) = 0%nat.
Proof. induction k as [| k IH]; [reflexivity | exact IH]. Qed.

Lemma DebounceSwitch_calls_polls env k :
  forall m,
    exists m',
      DebounceSwitch_calls env k m
      = Done (polls (map (pin_MODE env) (seq (n_MODE m) k)) (State m)) m'.
Proof.
  induction k as [| k IH]; intros m; [by eexists |].
  cbn [DebounceSwitch_calls seq map polls].
  unfold bind at 1. unfold DebounceSwitch at 1.
  cbn [bind digitalRead get modify ret State set_polls set_State].
  set (m1 := set_State _ _).
  destruct (IH m1) as (m' & E).
  exists m'. unfold bind. rewrite E. reflexivity.
Qed.

(** A press from released that is then held for 13 polls returns
    Triggered at none of them. *)
Lemma held_press_not_triggered :
  polls (repeat true 13 ++ repeat false 13) 0 = repeat 0 26
  /\ triggered (polls (repeat true 13 ++ repeat false 13) 0) <> 1%nat.
Proof. split; [vm_compute; reflexivity | vm_compute; discriminate]. Qed.

(** The release edge.  Successive calls of [DebounceSwitch] return the values
    [polls] computes.  After power-up no sequence of fewer than 13 polls
    returns Triggered.  From power-up, and from any register without a
    LOW sample among the last twelve: while the button is held no poll
    returns Triggered, however long it is held; a press of at least one
    poll followed by a release that lasts 12 polls returns Triggered
    exactly once, at the twelfth released poll, not again while the
    button stays released, and leaves the register ready for the next
    press. *)
Theorem debounce_release_edge :
  (forall env k m,
      exists m',
        DebounceSwitch_calls env k m
        = Done (polls (map (pin_MODE env) (seq (n_MODE m) k)) (State m)) m')
  /\ (forall levels,
         (length levels < 13)%nat ->
         polls levels 0 = repeat 0 (length levels))
  /\ quiet 0
  /\ (forall s a h,
         quiet s ->
         polls (repeat true a ++ repeat false h) s = repeat 0 (a + h))
  /\ (forall s a h r,
         quiet s -> (1 <= h)%nat -> (12 <= r)%nat ->
         let levels := repeat true a ++ repeat false h ++ repeat true r in
         polls levels s = repeat 0 (a + h + 11) ++ 1 :: repeat 0 (r - 12)
         /\ triggered (polls levels s) = 1%nat
         /\ quiet (run levels s)).
Proof.
  split; [| split; [| split; [| split]]].
  - intros env k m. apply DebounceSwitch_calls_polls.
  - intros levels Hlen. apply (polls_fresh levels 0); [lia | | lia].
    intros i _. apply Z.bits_0.
  - exact quiet_0.
  - intros s a h Hs. rewrite polls_app.
    destruct (polls_quiet a s Hs) as (-> & _).
    destruct (polls_held h (run (repeat true a) s)) as (-> & _).
    by rewrite repeat_app.
  - intros s a h r Hs Hh Hr. cbv zeta.
    destruct (polls_quiet a s Hs) as (Ha & _).
    destruct (polls_held h (run (repeat true a) s)) as (Hheld & Hlow).
    destruct (polls_released_long r _ (Hlow ltac:(lia)) Hr) as (Hrel & Hq).
    assert (E : polls (repeat true a ++ repeat false h ++ repeat true r) s
                = repeat 0 (a + h + 11) ++ 1 :: repeat 0 (r - 12)).
    { rewrite !polls_app, Ha, Hheld, Hrel.
      rewrite !repeat_app, <- !app_assoc. reflexivity. }
    rewrite E. split; [reflexivity |]. split.
    + rewrite triggered_app, triggered_silent.
      change (1 :: repeat 0 (r - 12)) with ([1] ++ repeat 0 (r - 12)).
      rewrite triggered_app, triggered_silent. reflexivity.
    + rewrite !run_app. exact Hq.
Qed.

(** C5. The debouncer does not detect a press.  With the MODE pin HIGH
    (released) at 13 polls from power-up and LOW (held) at the next 13,
    the 26 calls of [DebounceSwitch] all return 0, and so does every call
    during a press from released, however long the button is held.  One
    LOW sample after any number of HIGH samples, followed by twelve HIGH
    samples, returns 1 at the twelfth of them: the register matches on
    the release, and a press of a single sample is enough. *)
Theorem debounce_press_not_detected :
  map (pin_MODE press_env) (seq 0 26) = repeat true 13 ++ repeat false 13
  /\ (exists m',
        DebounceSwitch_calls press_env 26 (power_on ∅)
        = Done (repeat 0 26) m')
  /\ (forall a h, polls (repeat true a ++ repeat false h) 0 = repeat 0 (a + h))
  /\ (forall a,
         polls (repeat true a ++ false :: repeat true 12) 0
         = repeat 0 (a + 12) ++ [1]).
Proof.
  split; [reflexivity |]. split; [| split].
  - destruct (DebounceSwitch_calls_polls press_env 26 (power_on ∅))
      as (m' & E).
    exists m'. rewrite E. f_equal.
  - intros a h. rewrite polls_app.
    destruct (polls_quiet a 0 quiet_0) as (-> & _).
    destruct (polls_held h (run (repeat true a) 0)) as (-> & _).
    by rewrite repeat_app.
  - intros a.
    change (false :: repeat true 12) with (repeat false 1 ++ repeat true 12).
    rewrite !polls_app.
    destruct (polls_quiet a 0 quiet_0) as (-> & _).
    destruct (polls_held 1 (run (repeat true a) 0)) as (-> & Hlow).
    destruct (polls_released_long 12 _ (Hlow ltac:(lia)) ltac:(lia))
      as (-> & _).
    rewrite repeat_app, <- !app_assoc. reflexivity.
Qed.

(** ** Frame reasoning *)

#[local] Instance same_preorder {T} (f : Machine -> T) : PreOrder (same f).
Proof.
  split.
  - intros m. reflexivity.
  - intros m1 m2 m3 H1 H2. unfold same in *. congruence.
Qed.

#[local] Instance keeps_preorder (P : Machine -> Prop) : PreOrder (keeps P).
Proof.
  split.
  - intros m H. exact H.
  - intros m1 m2 m3 H1 H2 H. apply H2, H1, H.
Qed.

Section Preserves.

Context (R : relation Machine) `{!PreOrder R}.

Lemma preserves_ret {A} (a : A) : preserves R (ret a).
Proof. intros m. reflexivity. Qed.

Lemma preserves_Spin {A} : preserves R (@Spin A).
Proof. intros m. reflexivity. Qed.

Lemma preserves_get : preserves R get.
Proof. intros m. reflexivity. Qed.

Lemma preserves_modify f : (forall m, R m (f m)) -> preserves R (modify f).
Proof. intros H m. apply H. Qed.

Lemma preserves_bind {A B} (c : comp A) (k : A -> comp B) :
  preserves R c -> (forall a, preserves R (k a)) -> preserves R (bind c k).
Proof.
  intros Hc Hk m. unfold bind. specialize (Hc m).
  destruct (c m) as [a m1 | m1]; cbn [state_of] in *; [| exact Hc].
  etransitivity; [exact Hc | apply Hk].
Qed.

End Preserves.

(** Splits a frame goal along the structure of the code, using the frame
    facts in the context. *)
Ltac frame_step :=
  lazymatch goal with
  | |- preserves _ (bind _ _) => apply preserves_bind; [tc_solve | | intros ?]
  | |- preserves _ (ret _) => apply preserves_ret; tc_solve
  | |- preserves _ Spin => apply preserves_Spin; tc_solve
  | |- preserves _ get => apply preserves_get; tc_solve
  | |- preserves _ (if ?b then _ else _) => destruct b
  | |- preserves _ (digitalRead _ _) =>
      match goal with PF : primitive_frame _ _ |- _ => apply (pf_read _ _ PF) end
  | |- preserves _ (digitalWrite _ _) =>
      match goal with PF : primitive_frame _ _ |- _ => apply (pf_write _ _ PF) end
  | |- preserves _ (scale_dot_read _) =>
      match goal with PF : primitive_frame _ _ |- _ => apply (pf_scale _ _ PF) end
  | |- preserves _ (lcd_print_VOLUME _) =>
      match goal with PF : primitive_frame _ _ |- _ => apply (pf_lcd _ _ PF) end
  | |- preserves _ (updateMode _) => unfold updateMode
  | |- preserves _ (EEPROMRead _) => unfold EEPROMRead
  | |- preserves _ (modify _) =>
      first [solve [auto] | apply preserves_modify; intros ?; reflexivity]
  | |- preserves _ _ => solve [auto]
  end.

Ltac frame := repeat frame_step.

Section Frames.

Context (R : relation Machine) `{!PreOrder R} (env : Env).
Hypothesis PF : primitive_frame R env.

Lemma DebounceSwitch_preserves :
  (forall s, preserves R (modify (set_State s))) ->
  preserves R (DebounceSwitch env).
Proof. intros HS. unfold DebounceSwitch. frame. Qed.

Lemma log_readings_preserves count : preserves R (log_readings env count).
Proof. induction count as [| count IH]; cbn [log_readings]; frame. Qed.

Lemma median_loop_preserves t fuel : preserves R (median_loop env fuel t).
Proof.
  induction fuel as [| fuel IH]; cbn [median_loop]; unfold median_pass; frame.
  apply log_readings_preserves.
Qed.

Lemma manual_loop_preserves fuel : preserves R (manual_loop env fuel).
Proof. induction fuel as [| fuel IH]; cbn [manual_loop]; frame. Qed.

Lemma control_preserves fuel t :
  preserves R (modify (logged t)) ->
  preserves R (control env fuel t).
Proof.
  intros HL. unfold control. frame.
  - apply median_loop_preserves.
  - apply manual_loop_preserves.
Qed.

Lemma loop_preserves fuel :
  (forall s, preserves R (modify (set_State s))) ->
  (forall t, preserves R (modify (logged t))) ->
  preserves R (modify (fun m => set_index (next_index (index m)) m)) ->
  preserves R (loop env fuel).
Proof.
  intros HS HL HI. unfold loop. frame.
  - by apply DebounceSwitch_preserves.
  - by apply control_preserves.
Qed.

Lemma release_loop_preserves fuel : preserves R (release_loop env fuel).
Proof. induction fuel as [| fuel IH]; cbn [release_loop]; frame. Qed.

Lemma selection_loop_preserves fuel :
  (forall s, preserves R (modify (set_State s))) ->
  forall i, preserves R (selection_loop env fuel i).
Proof.
  intros HS. induction fuel as [| fuel IH]; intros i; cbn [selection_loop]; frame.
  all: by apply DebounceSwitch_preserves.
Qed.

Lemma selection_preserves fuel :
  (forall s, preserves R (modify (set_State s))) ->
  preserves R (selection env fuel).
Proof.
  intros HS. unfold selection. frame.
  - apply release_loop_preserves.
  - by apply selection_loop_preserves.
Qed.

Lemma inspect_loop_preserves fuel :
  (forall s, preserves R (modify (set_State s))) ->
  forall i, preserves R (inspect_loop env fuel i).
Proof.
  intros HS. induction fuel as [| fuel IH]; intros i; cbn [inspect_loop]; frame.
  all: by apply DebounceSwitch_preserves.
Qed.

Lemma hold_loop_preserves fuel :
  preserves R (scale_dot_get_units env) ->
  (forall u, preserves R
               (modify (fun m => set_locals (if flag m =? 0 then 1 else flag m)
                                            (Int.to_long (u * -1)) m))) ->
  preserves R (hold_loop env fuel).
Proof.
  intros HU HL. induction fuel as [| fuel IH]; cbn [hold_loop]; frame.
Qed.

Lemma capture_loop_preserves fuel :
  (forall fuel, preserves R (hold_loop env fuel)) ->
  preserves R (capture_loop env fuel).
Proof.
  intros HH. induction fuel as [| fuel IH]; cbn [capture_loop]; frame.
Qed.

Lemma load_thresholds_preserves :
  (forall i v, preserves R (modify (fun m => set_val (array_set (val m) i v) m))) ->
  preserves R load_thresholds.
Proof. intros HV. unfold load_thresholds, load_step. frame. Qed.

End Frames.

Lemma primitive_frame_same {T} (f : Machine -> T) env :
  (forall s u d mo m, f (set_polls s u d mo m) = f m) ->
  (forall l r m, f (set_outputs l r m) = f m) ->
  (forall v m, f (set_history (control_calls m) v m) = f m) ->
  primitive_frame (same f) env.
Proof.
  intros Hp Ho Hh. split.
  - intros [] m; apply Hp.
  - intros [] level m; apply Ho.
  - intros m. apply Hp.
  - intros i m. apply Hh.
Qed.

Lemma preserves_same_keeps {A T} (f : Machine -> T) (P : T -> Prop) (c : comp A) :
  preserves (same f) c -> preserves (keeps (fun m => P (f m))) c.
Proof. intros H m HP. rewrite (H m). exact HP. Qed.

Lemma same_after {A B T} (f : Machine -> T) (c : comp A) (k : A -> comp B) m :
  (forall a, preserves (same f) (k a)) ->
  f (state_of (bind c k m)) = f (state_of (c m)).
Proof.
  intros H. unfold bind. destruct (c m) as [a m1 | m1]; [apply H | reflexivity].
Qed.

(** ** The trigger of the main loop *)

Lemma control_calls_frame env : primitive_frame (same control_calls) env.
Proof. by apply primitive_frame_same. Qed.

Lemma control_logs env fuel t m :
  control_calls (state_of (control env fuel t m)) = control_calls m ++ [t].
Proof.
  pose proof (control_calls_frame env) as PF.
  unfold control.
  change (bind (modify ?f) ?k m) with (k tt (f m)).
  cbv beta.
  set (k := bind _ _).
  assert (Hk : preserves (same control_calls) k).
  { subst k. frame.
    - apply (median_loop_preserves _ _ PF).
    - apply (manual_loop_preserves _ _ PF). }
  rewrite (Hk _). reflexivity.
Qed.

Lemma loop_eq env fuel m :
  loop env fuel m
  = bind (if dispense_condition env m
          then lcd_print_VOLUME (index m) ;;
               digitalWrite LED true ;;
               digitalWrite RELAY true ;;
               control env fuel (array_get (val m) (index m))
          else ret tt)
         (fun _ => if switchState env m =? 1
                   then modify (fun m => set_index (next_index (index m)) m) ;;
                        m <- get ;; updateMode (index m)
                   else ret tt)
         (polled env m).
Proof.
  unfold loop, dispense_condition, switchState.
  cbn [bind DebounceSwitch digitalRead scale_dot_read get modify ret].
  destruct (pin_DISPENSE env (n_DISPENSE m)) eqn:E;
    cbn [set_State set_polls n_DISPENSE]; rewrite E; reflexivity.
Qed.

(** C6. An iteration of [loop] calls [control], with the active
    threshold [val[index]], if and only if its poll of the DISPENSE pin
    reads LOW (pressed) and the sign-corrected reading it has just taken
    is strictly below that threshold.  Otherwise the iteration returns
    without touching relay or indicator; in particular no dispensing
    starts while the reading is at or above the threshold. *)
Theorem loop_dispense_trigger (env : Env) (fuel : nat) (m : Machine) :
  let held := negb (pin_DISPENSE env (n_DISPENSE m)) in
  let reading := Int.to_long (scale_read env (n_scale m) * -1) in
  let threshold := array_get (val m) (index m) in
  let m' := state_of (loop env fuel m) in
  control_calls m'
  = control_calls m ++ (if held && (reading <? threshold) then [threshold] else [])
  /\ (held && (reading <? threshold) = false ->
      returns (loop env fuel m) = true
      /\ RELAY_PIN m' = RELAY_PIN m /\ LED_BUILTIN m' = LED_BUILTIN m)
  /\ (threshold <= reading ->
      control_calls m' = control_calls m /\ RELAY_PIN m' = RELAY_PIN m).
Proof.
  cbv zeta.
  pose proof (control_calls_frame env) as PF.
  fold (dispense_condition env m).
  assert (Hidle : dispense_condition env m = false ->
                  returns (loop env fuel m) = true
                  /\ control_calls (state_of (loop env fuel m)) = control_calls m
                  /\ RELAY_PIN (state_of (loop env fuel m)) = RELAY_PIN m
                  /\ LED_BUILTIN (state_of (loop env fuel m)) = LED_BUILTIN m).
  { intros E. rewrite loop_eq, E. cbn [bind ret].
    destruct (switchState env m =? 1); [| by cbn].
    cbn [bind modify get]. unfold updateMode.
    destruct (_ =? 3); by cbn. }
  split; [| split].
  - destruct (dispense_condition env m) eqn:E.
    + rewrite loop_eq, E.
      rewrite same_after.
      2:{ intros _. frame. }
      cbn [bind lcd_print_VOLUME digitalWrite modify].
      rewrite control_logs. reflexivity.
    + destruct (Hidle eq_refl) as (_ & -> & _). by rewrite app_nil_r.
  - intros E. destruct (Hidle E) as (? & _ & ? & ?). auto.
  - intros Hge.
    assert (E : dispense_condition env m = false).
    { unfold dispense_condition.
      destruct (Z.ltb_spec (Int.to_long (scale_read env (n_scale m) * -1))
                           (array_get (val m) (index m))); [lia |].
      apply andb_false_r. }
    destruct (Hidle E) as (_ & ? & ? & _). auto.
Qed.

(** ** Relations kept by the whole sketch *)

Section SketchFrame.

Context (R : relation Machine) `{!PreOrder R} (env : Env).
Hypothesis PF : primitive_frame R env.
Hypothesis HState : forall s, preserves R (modify (set_State s)).
Hypothesis Hlogged : forall t, preserves R (modify (logged t)).
Hypothesis Hindex :
  preserves R (modify (fun m => set_index (next_index (index m)) m)).
Hypothesis Hunits : preserves R (scale_dot_get_units env).
Hypothesis Hcapture :
  forall u, preserves R
              (modify (fun m => set_locals (if flag m =? 0 then 1 else flag m)
                                           (Int.to_long (u * -1)) m)).
Hypothesis Hlocals :
  forall i, preserves R (modify (fun m => set_locals 0 (array_get (val m) i) m)).
Hypothesis Heeprom : forall a v, preserves R (EEPROMWrite a v).
Hypothesis Hval :
  forall i v, preserves R (modify (fun m => set_val (array_set (val m) i v) m)).
Hypothesis HselectedMode : forall s, preserves R (modify (set_selectedMode s)).

Lemma calibrateFunction_preserves fuel i :
  preserves R (calibrateFunction env fuel i).
Proof.
  unfold calibrateFunction. frame.
  apply (capture_loop_preserves _ _ PF).
  intros fuel'. by apply (hold_loop_preserves _ _ PF).
Qed.

Lemma setup_preserves fuel : preserves R (setup env fuel).
Proof.
  unfold setup. frame.
  all: first [ by apply (selection_preserves _ _ PF)
             | apply calibrateFunction_preserves
             | by apply (load_thresholds_preserves R)
             | by apply (inspect_loop_preserves _ _ PF) ].
Qed.

Lemma loops_preserves fuel k : preserves R (loops env fuel k).
Proof.
  induction k as [| k IH]; cbn [loops]; frame.
  by apply (loop_preserves _ _ PF).
Qed.

Lemma sketch_preserves fuel k : preserves R (sketch env fuel k).
Proof.
  unfold sketch. frame.
  - apply setup_preserves.
  - apply loops_preserves.
Qed.

End SketchFrame.

(** ** The mode index *)

Lemma primitive_frame_keeps {T} (f : Machine -> T) (P : T -> Prop) env :
  primitive_frame (same f) env ->
  primitive_frame (keeps (fun m => P (f m))) env.
Proof.
  intros [Hr Hw Hs Hl].
  split; intros; apply (preserves_same_keeps f P); auto.
Qed.

(** Closes the frame goals of the updates that leave an observation
    syntactically untouched. *)
Ltac untouched :=
  intros;
  lazymatch goal with
  | |- preserves (keeps _) _ =>
      let m := fresh "m" in
      let H := fresh "H" in
      intros m H; exact H
  | |- preserves _ _ => intros ?; reflexivity
  end.

Lemma index_frame env : primitive_frame (same index) env.
Proof. by apply primitive_frame_same. Qed.

Lemma next_index_range i : 0 <= next_index i <= 3.
Proof.
  unfold next_index, Int.to_byte.
  destruct (Z.gtb_spec ((i + 1) mod 2 ^ 8) 3); [lia |].
  pose proof (Z.mod_pos_bound (i + 1) (2 ^ 8)). lia.
Qed.

Lemma next_index_mod i : 0 <= i <= 3 -> next_index i = (i + 1) mod 4.
Proof.
  intros H. unfold next_index, Int.to_byte.
  rewrite (Z.mod_small (i + 1)) by lia.
  destruct (Z.gtb_spec (i + 1) 3).
  - replace i with 3 by lia. reflexivity.
  - rewrite Z.mod_small by lia. reflexivity.
Qed.

Lemma iter_next_index k : Nat.iter k next_index 0 = Z.of_nat k mod 4.
Proof.
  induction k as [| k IH]; [reflexivity |].
  change (Nat.iter (S k) next_index 0) with (next_index (Nat.iter k next_index 0)).
  rewrite IH.
  rewrite next_index_mod
    by (pose proof (Z.mod_pos_bound (Z.of_nat k) 4); lia).
  rewrite Zplus_mod_idemp_l. f_equal. lia.
Qed.

(** ** Calibration *)

Lemma capture_loop_idle env :
  forall fuel m,
    flag m = 0 ->
    (forall k, pin_MODE env (n_MODE m + k) = true) ->
    exists m',
      capture_loop env fuel m = Spin m'
      /\ flag m' = 0 /\ localValue m' = localValue m
      /\ eeprom m' = eeprom m /\ val m' = val m
      /\ n_units m' = n_units m /\ n_MODE m' = (n_MODE m + fuel)%nat.
Proof.
  induction fuel as [| fuel IH]; intros m Hflag Hhigh.
  - exists m. rewrite Nat.add_0_r. by repeat split.
  - cbn [capture_loop hold_loop]. unfold bind at 1. cbn [get].
    rewrite Hflag. cbn [Z.eqb].
    unfold bind at 1. unfold bind at 1. cbn [digitalRead].
    pose proof (Hhigh 0%nat) as H0. rewrite Nat.add_0_r in H0. rewrite H0.
    cbn [Z.b2z Z.eqb ret bind digitalWrite modify].
    set (m1 := set_outputs _ _ _).
    destruct (IH m1) as (m' & E & Hf & Hl & He & Hv & Hu & Hm).
    + exact Hflag.
    + intros k. subst m1. cbn [n_MODE set_outputs set_polls].
      replace (S (n_MODE m) + k)%nat with (n_MODE m + S k)%nat by lia.
      apply Hhigh.
    + exists m'. split; [exact E |].
      subst m1. cbn in Hl, He, Hv, Hu, Hm.
      repeat split; try assumption. lia.
Qed.

Lemma calibrateFunction_eq env fuel i m :
  calibrateFunction env fuel i m
  = bind (capture_loop env fuel)
         (fun _ => m <- get ;;
                   EEPROMWrite (array_get address i) (localValue m))
         (capture_start i m).
Proof. reflexivity. Qed.

(** C8. If the MODE pin never reads LOW once [calibrateFunction] has been
    entered, the function never returns, nothing is written to the
    EEPROM, no averaged reading is taken, the flag stays 0 and the
    candidate stays the value [val[localIndex]] it started with. *)
Theorem calibration_without_press (env : Env) (fuel : nat) (i : Z) (m : Machine) :
  (forall k, pin_MODE env (n_MODE m + k) = true) ->
  let o := calibrateFunction env fuel i m in
  returns o = false
  /\ eeprom (state_of o) = eeprom m
  /\ localValue (state_of o) = array_get (val m) i
  /\ flag (state_of o) = 0
  /\ val (state_of o) = val m
  /\ n_units (state_of o) = n_units m.
Proof.
  intros Hhigh. cbv zeta. rewrite calibrateFunction_eq.
  destruct (capture_loop_idle env fuel (capture_start i m))
    as (m' & E & Hf & Hl & He & Hv & Hu & _).
  - reflexivity.
  - exact Hhigh.
  - rewrite (bind_Spin _ _ _ _ E). cbn [returns state_of].
    cbn in Hl, He, Hv, Hu. repeat split; assumption.
Qed.

Lemma bind_returns {A B} (c : comp A) (k : A -> comp B) m b m' :
  bind c k m = Done b m' ->
  exists a m1, c m = Done a m1 /\ k a m1 = Done b m'.
Proof.
  unfold bind. destruct (c m) as [a m1 | m1]; [| discriminate].
  intros H. by exists a, m1.
Qed.

Lemma captured_frame env c : primitive_frame (keeps (captured env c)) env.
Proof.
  split.
  - intros [] m H; exact H.
  - intros [] level m H; exact H.
  - intros m H; exact H.
  - intros i m H; exact H.
Qed.

Lemma hold_loop_captured env c :
  forall fuel, preserves (keeps (captured env c)) (hold_loop env fuel).
Proof.
  induction fuel as [| fuel IH]; intros m H; [exact H |].
  cbn [hold_loop]. unfold bind at 1. cbn [digitalRead].
  destruct (pin_MODE env (n_MODE m)); cbn [Z.b2z Z.eqb]; [exact H |].
  cbn [bind digitalWrite modify scale_dot_get_units].
  apply IH. destruct H as (Hle & _). split; cbn.
  - lia.
  - intros _. split; [lia |]. by rewrite Nat.sub_0_r.
Qed.

Lemma capture_loop_captured env c fuel :
  preserves (keeps (captured env c)) (capture_loop env fuel).
Proof.
  apply (capture_loop_preserves _ _ (captured_frame env c)).
  apply hold_loop_captured.
Qed.

Lemma capture_loop_returns env :
  forall fuel m m', capture_loop env fuel m = Done tt m' -> flag m' <> 0.
Proof.
  induction fuel as [| fuel IH]; intros m m' H; [discriminate |].
  cbn [capture_loop] in H. unfold bind at 1 in H. cbn [get] in H.
  destruct (Z.eqb_spec (flag m) 0) as [E | E].
  - apply bind_returns in H as (_ & m1 & _ & H).
    cbn [bind digitalWrite modify] in H. by apply IH in H.
  - injection H as <-. exact E.
Qed.

Lemma eeprom_frame env : primitive_frame (same eeprom) env.
Proof. by apply primitive_frame_same. Qed.

Lemma val_frame env : primitive_frame (same val) env.
Proof. by apply primitive_frame_same. Qed.

Lemma localValue_frame env : primitive_frame (same localValue) env.
Proof. by apply primitive_frame_same. Qed.

Lemma selectedMode_frame env : primitive_frame (same selectedMode) env.
Proof. by apply primitive_frame_same. Qed.

Lemma n_units_frame env : primitive_frame (same n_units) env.
Proof.
  split.
  - intros [] m; reflexivity.
  - intros [] level m; reflexivity.
  - intros m; reflexivity.
  - intros i m; reflexivity.
Qed.

Lemma capture_loop_same {T} (f : Machine -> T) env fuel :
  primitive_frame (same f) env ->
  (forall s u d mo m, f (set_polls s u d mo m) = f m) ->
  (forall x y m, f (set_locals x y m) = f m) ->
  preserves (same f) (capture_loop env fuel).
Proof.
  intros PF Hp Hl. apply (capture_loop_preserves _ _ PF).
  intros fuel'. apply (hold_loop_preserves _ _ PF).
  - intros m. apply Hp.
  - intros u m. apply Hl.
Qed.

(** What a completed [calibrateFunction] leaves behind. *)
Lemma calibrateFunction_returns env fuel i m m' :
  calibrateFunction env fuel i m = Done tt m' ->
  (n_units m < n_units m')%nat
  /\ localValue m'
     = Int.to_long (scale_get_units env (n_units m' - 1) * -1)
  /\ eeprom m'
     = EEPROMWrite_cells (array_get address i) (localValue m') (eeprom m)
  /\ val m' = val m
  /\ selectedMode m' = selectedMode m.
Proof.
  rewrite calibrateFunction_eq. intros H.
  apply bind_returns in H as ([] & m1 & Hc & H).
  cbn [bind get EEPROMWrite modify] in H. injection H as <-.
  pose proof (capture_loop_returns _ _ _ _ Hc) as Hflag.
  pose proof (capture_loop_captured env (n_units m) fuel (capture_start i m))
    as Hcap.
  rewrite Hc in Hcap. cbn [state_of] in Hcap.
  destruct Hcap as (_ & Hcap); [split; [cbn; lia | intros F; by cbn in F] |].
  destruct (Hcap Hflag) as (Hlt & Hv).
  pose proof (capture_loop_same eeprom env fuel (eeprom_frame env)
                ltac:(reflexivity) ltac:(reflexivity) (capture_start i m)) as He.
  pose proof (capture_loop_same val env fuel (val_frame env)
                ltac:(reflexivity) ltac:(reflexivity) (capture_start i m)) as Hval.
  pose proof (capture_loop_same selectedMode env fuel (selectedMode_frame env)
                ltac:(reflexivity) ltac:(reflexivity) (capture_start i m)) as Hsel.
  rewrite Hc in He, Hval, Hsel. unfold same in *. cbn in He, Hval, Hsel.
  cbn. rewrite He. repeat split; assumption.
Qed.

Lemma selection_loop_range env :
  forall fuel i m s m',
    0 <= i <= 2 ->
    selection_loop env fuel i m = Done s m' -> 0 <= s <= 2.
Proof.
  induction fuel as [| fuel IH]; intros i m s m' Hi H; [discriminate |].
  cbn [selection_loop] in H.
  apply bind_returns in H as (sw & m1 & _ & H).
  apply bind_returns in H as (d & m2 & _ & H).
  apply bind_returns in H as ([] & m3 & _ & H).
  assert (Hi' : 0 <= (if sw =? 1
                      then if i + 1 >? 2 then 0 else i + 1
                      else i) <= 2).
  { destruct (sw =? 1); [| exact Hi].
    destruct (Z.gtb_spec (i + 1) 2); lia. }
  destruct (d =? 0).
  - injection H as <- _. exact Hi'.
  - exact (IH _ _ _ _ Hi' H).
Qed.

Lemma selection_range env fuel m s m' :
  selection env fuel m = Done s m' -> 0 <= s <= 2.
Proof.
  unfold selection. intros H.
  apply bind_returns in H as ([] & m1 & _ & H).
  apply bind_returns in H as ([] & m2 & _ & H).
  apply (selection_loop_range env fuel 0 m2 s m'); [lia | exact H].
Qed.

Lemma setup_calibrating env fuel e :
  pin_DISPENSE env 0 = false -> pin_MODE env 0 = false ->
  setup env fuel (power_on e)
  = bind (selection env fuel)
         (fun s => modify (set_selectedMode s) ;;
                   calibrateFunction env fuel s ;;
                   load_thresholds ;;
                   after_load env fuel)
         (set_polls 0 0 1 1 (power_on e)).
Proof.
  intros Hd Hm. unfold setup, bind, digitalRead.
  cbn [power_on n_DISPENSE n_MODE set_polls]. rewrite Hd.
  cbn [Z.b2z Z.eqb n_MODE set_polls]. rewrite Hm.
  cbn [ret Z.b2z Z.eqb].
  change (set_polls _ _ _ 1 (set_polls _ _ 1 0 (power_on e)))
    with (set_polls 0 0 1 1 (power_on e)).
  destruct (selection env fuel (set_polls 0 0 1 1 (power_on e)))
    as [s m1 | m1]; [| reflexivity].
  cbn [modify].
  destruct (calibrateFunction env fuel s (set_selectedMode s m1))
    as [[] m2 | m2]; [| reflexivity].
  destruct (load_thresholds m2) as [[] m3 | m3]; reflexivity.
Qed.

Lemma after_load_same {T} (f : Machine -> T) env fuel :
  primitive_frame (same f) env ->
  (forall s m, f (set_State s m) = f m) ->
  preserves (same f) (after_load env fuel).
Proof.
  intros PF HS. unfold after_load, inspectContents. frame.
  all: apply (inspect_loop_preserves _ _ PF); intros s m; apply HS.
Qed.

Lemma load_thresholds_eq m a b c d :
  val m = [a; b; c; d] ->
  load_thresholds m
  = Done tt (set_val [EEPROMRead_cells 0 (eeprom m);
                      EEPROMRead_cells 4 (eeprom m);
                      EEPROMRead_cells 8 (eeprom m); d] m).
Proof.
  intros Hv. unfold load_thresholds, load_step.
  cbn [bind EEPROMRead get ret modify]. cbn. rewrite Hv. reflexivity.
Qed.

Lemma selection_same {T} (f : Machine -> T) env fuel :
  primitive_frame (same f) env ->
  (forall s m, f (set_State s m) = f m) ->
  preserves (same f) (selection env fuel).
Proof.
  intros PF HS. apply (selection_preserves _ _ PF). intros s m. apply HS.
Qed.

Lemma setup_calibration_returns (env : Env) (e : gmap Z Z) (fuel : nat)
    (m' : Machine) :
  pin_DISPENSE env 0 = false ->
  pin_MODE env 0 = false ->
  setup env fuel (power_on e) = Done tt m' ->
  let i := selectedMode m' in
  let v := localValue m' in
  0 <= i <= 2
  /\ (0 < n_units m')%nat
  /\ v = Int.to_long (scale_get_units env (n_units m' - 1) * -1)
  /\ eeprom m' = EEPROMWrite_cells (array_get address i) v e
  /\ EEPROMRead_cells (array_get address i) (eeprom m') = v
  /\ array_get (val m') i = v.
Proof.
  intros Hd Hm H. cbv zeta.
  rewrite setup_calibrating in H by assumption.
  apply bind_returns in H as (s & m1 & Hsel & H).
  pose proof (selection_range _ _ _ _ _ Hsel) as Hs.
  cbn [bind modify] in H.
  apply bind_returns in H as ([] & m2 & Hcal & H).
  apply calibrateFunction_returns in Hcal as (Hlt & Hv & He & Hval & Hmode).
  cbn in Hmode.
  pose proof (selection_same eeprom env fuel (eeprom_frame env)
                ltac:(reflexivity) (set_polls 0 0 1 1 (power_on e))) as He1.
  pose proof (selection_same val env fuel (val_frame env)
                ltac:(reflexivity) (set_polls 0 0 1 1 (power_on e))) as Hval1.
  rewrite Hsel in He1, Hval1. unfold same in He1, Hval1.
  cbn in He1, Hval1, He, Hval. rewrite He1 in He. rewrite Hval1 in Hval.
  apply bind_returns in H as ([] & m3 & Hload & H).
  rewrite (load_thresholds_eq m2 _ _ _ _ Hval) in Hload.
  injection Hload as Hload.
  pose proof (after_load_same eeprom env fuel (eeprom_frame env)
                ltac:(reflexivity) m3) as He3.
  pose proof (after_load_same val env fuel (val_frame env)
                ltac:(reflexivity) m3) as Hval3.
  pose proof (after_load_same localValue env fuel (localValue_frame env)
                ltac:(reflexivity) m3) as Hv3.
  pose proof (after_load_same selectedMode env fuel (selectedMode_frame env)
                ltac:(reflexivity) m3) as Hmode3.
  pose proof (after_load_same n_units env fuel (n_units_frame env)
                ltac:(reflexivity) m3) as Hu3.
  rewrite H in He3, Hval3, Hv3, Hmode3, Hu3. unfold same in *. subst m3.
  cbn in He3, Hval3, Hv3, Hmode3, Hu3.
  rewrite Hmode3, Hmode, Hv3, He3, Hval3.
  assert (Hround : EEPROMRead_cells (array_get address s) (eeprom m2)
                   = localValue m2).
  { rewrite He. apply EEPROM_cells_round_trip.
    rewrite Hv. apply to_long_range. }
  rewrite Hu3.
  split; [exact Hs |]. split; [lia |]. split; [exact Hv |].
  split; [exact He |]. split; [exact Hround |].
  assert (s = 0 \/ s = 1 \/ s = 2) as [-> | [-> | ->]] by lia; exact Hround.
Qed.

(** [calibrateFunction] does return once the MODE button has been pressed
    and released. *)

Lemma hold_loop_release env h :
  forall fuel m,
    (h < fuel)%nat ->
    (forall k, (k < h)%nat -> pin_MODE env (n_MODE m + k) = false) ->
    pin_MODE env (n_MODE m + h) = true ->
    exists m',
      hold_loop env fuel m = Done tt m'
      /\ n_MODE m' = S (n_MODE m + h)
      /\ (h = 0%nat -> flag m' = flag m)
      /\ ((0 < h)%nat \/ flag m <> 0 -> flag m' <> 0).
Proof.
  induction h as [| h IH]; intros fuel m Hfuel Hlow Hhigh;
    (destruct fuel as [| fuel]; [lia |]); cbn [hold_loop];
    unfold bind at 1; cbn [digitalRead].
  - rewrite Nat.add_0_r in Hhigh. rewrite Hhigh. cbn [Z.b2z Z.eqb ret].
    eexists. split; [reflexivity |]. cbn. rewrite Nat.add_0_r.
    repeat split. intros [? | ?]; [lia | assumption].
  - pose proof (Hlow 0%nat ltac:(lia)) as H0. rewrite Nat.add_0_r in H0.
    rewrite H0. cbn [Z.b2z Z.eqb bind digitalWrite modify scale_dot_get_units].
    set (m1 := set_locals _ _ _).
    destruct (IH fuel m1) as (m' & E & Hn & _ & Hf).
    + lia.
    + intros k Hk. subst m1. cbn.
      replace (S (n_MODE m + k)) with (n_MODE m + S k)%nat by lia.
      apply Hlow. lia.
    + subst m1. cbn.
      replace (S (n_MODE m + h)) with (n_MODE m + S h)%nat by lia.
      exact Hhigh.
    + exists m'. split; [exact E |]. subst m1. cbn in Hn, Hf.
      split; [lia |]. split; [lia |]. intros _. apply Hf. right.
      destruct (flag m =? 0) eqn:F; [lia | by apply Z.eqb_neq].
Qed.

Lemma capture_loop_completes env a :
  forall fuel m h,
    flag m = 0 ->
    (1 <= h)%nat ->
    (a + h + 1 < fuel)%nat ->
    (forall k, (k < a)%nat -> pin_MODE env (n_MODE m + k) = true) ->
    (forall k, (k < h)%nat -> pin_MODE env (n_MODE m + a + k) = false) ->
    pin_MODE env (n_MODE m + a + h) = true ->
    exists m', capture_loop env fuel m = Done tt m'.
Proof.
  induction a as [| a IH]; intros fuel m h Hflag Hh Hfuel Hhigh Hlow Hrel;
    (destruct fuel as [| fuel]; [lia |]); cbn [capture_loop];
    unfold bind at 1; cbn [get]; rewrite Hflag; cbn [Z.eqb].
  - destruct (hold_loop_release env h (S fuel) m) as (m1 & E & _ & _ & Hf).
    + lia.
    + intros k Hk. rewrite <- (Nat.add_0_r (n_MODE m)) at 1.
      replace (n_MODE m + 0 + k)%nat with (n_MODE m + 0 + k)%nat by lia.
      apply Hlow. exact Hk.
    + rewrite <- (Nat.add_0_r (n_MODE m)) at 1. exact Hrel.
    + rewrite (bind_Done _ _ _ _ _ E). cbn [bind digitalWrite modify].
      destruct fuel as [| fuel]; [lia |]. cbn [capture_loop].
      unfold bind at 1. cbn [get flag set_outputs].
      destruct (Z.eqb_spec (flag m1) 0) as [F | F].
      * exfalso. apply Hf; [left; lia | exact F].
      * by eexists.
  - destruct (hold_loop_release env 0 (S fuel) m) as (m1 & E & Hn & Hf & _).
    + lia.
    + intros k Hk. lia.
    + apply (Hhigh 0%nat). lia.
    + rewrite (bind_Done _ _ _ _ _ E). cbn [bind digitalWrite modify].
      set (m2 := set_outputs _ _ _).
      apply (IH fuel m2 h).
      * subst m2. cbn. rewrite Hf by reflexivity. exact Hflag.
      * exact Hh.
      * lia.
      * intros k Hk. subst m2. cbn. rewrite Hn.
        replace (S (n_MODE m + 0) + k)%nat with (n_MODE m + S k)%nat by lia.
        apply Hhigh. lia.
      * intros k Hk. subst m2. cbn. rewrite Hn.
        replace (S (n_MODE m + 0) + a + k)%nat
          with (n_MODE m + S a + k)%nat by lia.
        apply Hlow. exact Hk.
      * subst m2. cbn. rewrite Hn.
        replace (S (n_MODE m + 0) + a + h)%nat
          with (n_MODE m + S a + h)%nat by lia.
        exact Hrel.
Qed.

Lemma calibrateFunction_completes env fuel i m a h :
  (1 <= h)%nat ->
  (a + h + 1 < fuel)%nat ->
  (forall k, (k < a)%nat -> pin_MODE env (n_MODE m + k) = true) ->
  (forall k, (k < h)%nat -> pin_MODE env (n_MODE m + a + k) = false) ->
  pin_MODE env (n_MODE m + a + h) = true ->
  exists m', calibrateFunction env fuel i m = Done tt m'.
Proof.
  intros Hh Hfuel Hhigh Hlow Hrel. rewrite calibrateFunction_eq.
  destruct (capture_loop_completes env a fuel (capture_start i m) h)
    as (m1 & E); try assumption; [reflexivity |].
  rewrite (bind_Done _ _ _ _ _ E). by eexists.
Qed.

(** C7. Once the MODE button has been pressed and released in the capture
    phase, [calibrateFunction] returns, and whenever it returns for
    preset [i] the captured value, the sign-corrected last averaged
    reading, has been written to the EEPROM at [address[i]], where
    [EEPROMRead] finds it, and the reload that follows in [setup] puts
    it in [val[i]].  So when [setup], entered with both buttons held,
    returns, the selected preset [i] is one of 0, 1, 2, the EEPROM is the
    one found at power-up with the captured value written at
    [address[i]], and [val[i]] holds that value. *)
Theorem calibration_persisted (env : Env) (fuel : nat) :
  (forall i m a h,
      (1 <= h)%nat ->
      (a + h + 1 < fuel)%nat ->
      (forall k, (k < a)%nat -> pin_MODE env (n_MODE m + k) = true) ->
      (forall k, (k < h)%nat -> pin_MODE env (n_MODE m + a + k) = false) ->
      pin_MODE env (n_MODE m + a + h) = true ->
      exists m', calibrateFunction env fuel i m = Done tt m')
  /\ (forall i m m',
         0 <= i <= 2 ->
         length (val m) = 4%nat ->
         calibrateFunction env fuel i m = Done tt m' ->
         let v := localValue m' in
         (n_units m < n_units m')%nat
         /\ v = Int.to_long (scale_get_units env (n_units m' - 1) * -1)
         /\ eeprom m' = EEPROMWrite_cells (array_get address i) v (eeprom m)
         /\ EEPROMRead_cells (array_get address i) (eeprom m') = v
         /\ array_get (val (state_of (load_thresholds m'))) i = v)
  /\ (forall e m',
         pin_DISPENSE env 0 = false ->
         pin_MODE env 0 = false ->
         setup env fuel (power_on e) = Done tt m' ->
         let i := selectedMode m' in
         let v := localValue m' in
         0 <= i <= 2
         /\ (0 < n_units m')%nat
         /\ v = Int.to_long (scale_get_units env (n_units m' - 1) * -1)
         /\ eeprom m' = EEPROMWrite_cells (array_get address i) v e
         /\ EEPROMRead_cells (array_get address i) (eeprom m') = v
         /\ array_get (val m') i = v).
Proof.
  split; [| split].
  - intros i m a h. apply calibrateFunction_completes.
  - intros i m m' Hi Hlen Hcal. cbv zeta.
    apply calibrateFunction_returns in Hcal as (Hlt & Hv & He & Hval & _).
    assert (Hround : EEPROMRead_cells (array_get address i) (eeprom m')
                     = localValue m').
    { rewrite He. apply EEPROM_cells_round_trip.
      rewrite Hv. apply to_long_range. }
    split; [exact Hlt |]. split; [exact Hv |]. split; [exact He |].
    split; [exact Hround |].
    destruct (val m) as [| x0 [| x1 [| x2 [| x3 [| x4 l]]]]] eqn:Hm;
      try discriminate.
    rewrite (load_thresholds_eq m' x0 x1 x2 x3) by congruence.
    cbn [state_of val set_val].
    assert (i = 0 \/ i = 1 \/ i = 2) as [-> | [-> | ->]] by lia; exact Hround.
  - intros e m'. apply setup_calibration_returns.
Qed.

(** ** An out-of-bounds read of [VOLUME] *)

(** C10. The code reads [VOLUME] out of bounds.  From power-up with no
    button held, three taps of the MODE button bring [index] to 3
    (Manual, threshold -1); with the DISPENSE button then pressed and a
    sign-corrected reading of -2, the next iteration of [loop] enters the
    dispense branch and reads [VOLUME[3]], past the end of the
    three-element array, before it calls [control(-1)]. *)
Theorem manual_dispense_reads_VOLUME_out_of_bounds :
  let m39 := state_of (sketch manual_env 2 39 (power_on ∅)) in
  let m40 := state_of (loop manual_env 2 m39) in
  returns (sketch manual_env 2 39 (power_on ∅)) = true
  /\ index m39 = 3
  /\ array_get (val m39) (index m39) = -1
  /\ pin_DISPENSE manual_env (n_DISPENSE m39) = false
  /\ Int.to_long (scale_read manual_env (n_scale m39) * -1) = -2
  /\ returns (loop manual_env 2 m39) = true
  /\ VOLUME_reads m40 = VOLUME_reads m39 ++ [3]
  /\ control_calls m40 = [-1]
  /\ VOLUME !! Z.to_nat 3 = None.
Proof.
  cbv zeta.
  split; [vm_compute; reflexivity |].
  split; [vm_compute; reflexivity |].
  split; [vm_compute; reflexivity |].
  split; [vm_compute; reflexivity |].
  split; [vm_compute; reflexivity |].
  split; [vm_compute; reflexivity |].
  split; [vm_compute; reflexivity |].
  split; [vm_compute; reflexivity |].
  reflexivity.
Qed.

(** ** Instances *)

Lemma dispense_loop_threshold_witness :
  exists m',
    control dispense_env 2 220000 (power_on ∅) = Done tt m'
    /\ n_scale m' = 6%nat
    /\ RELAY_PIN m' = false /\ LED_BUILTIN m' = false.
Proof.
  destruct (dispense_loop_threshold dispense_env 220000 (power_on ∅))
    as (Hstop & _); [lia |].
  apply (Hstop 2%nat 1%nat).
  - lia.
  - intros j Hj. replace j with 0%nat by lia. vm_compute. reflexivity.
  - vm_compute. discriminate.
Defined.

Lemma manual_dispense_witness :
  exists m',
    control release_env 5 (-1) (power_on ∅) = Done tt m'
    /\ n_DISPENSE m' = 4%nat
    /\ RELAY_PIN m' = false /\ LED_BUILTIN m' = false.
Proof.
  destruct (manual_dispense release_env (power_on ∅)) as (_ & _ & Hstop & _).
  apply (Hstop 5%nat 3%nat).
  - lia.
  - intros j Hj. cbn.
    destruct j as [| [| [| j]]]; [reflexivity | reflexivity | reflexivity | lia].
  - reflexivity.
Defined.

Lemma debounce_release_edge_witness :
  triggered (polls (repeat true 2 ++ repeat false 1 ++ repeat true 12) 0)
  = 1%nat.
Proof.
  destruct debounce_release_edge as (_ & _ & Hquiet & _ & Hedge).
  destruct (Hedge 0 2%nat 1%nat 12%nat) as (_ & Htriggered & _);
    [exact Hquiet | lia | lia |].
  exact Htriggered.
Defined.

Lemma loop_dispense_trigger_witness :
  control_calls (state_of (loop dispense_env 2 (power_on ∅))) = [220000]
  /\ control_calls (state_of (loop idle_env 2 (power_on ∅))) = []
  /\ RELAY_PIN (state_of (loop idle_env 2 (power_on ∅))) = false.
Proof.
  destruct (loop_dispense_trigger dispense_env 2 (power_on ∅)) as (Hcall & _).
  destruct (loop_dispense_trigger idle_env 2 (power_on ∅))
    as (Hskip & Hidle & _).
  split; [exact Hcall |]. split; [exact Hskip |].
  apply Hidle. reflexivity.
Defined.

Lemma returns_Done (o : outcome unit) :
  returns o = true -> o = Done tt (state_of o).
Proof. destruct o as [[] m | m]; [reflexivity | discriminate]. Qed.

Lemma calibration_persisted_witness :
  let m' := state_of (setup calibration_env 20 (power_on ∅)) in
  selectedMode m' = 1
  /\ localValue m' = 240001
  /\ EEPROMRead_cells (array_get address (selectedMode m')) (eeprom m')
     = localValue m'
  /\ array_get (val m') (selectedMode m') = localValue m'.
Proof.
  cbv zeta.
  destruct (calibration_persisted calibration_env 20) as (_ & _ & Hsetup).
  destruct (Hsetup ∅ (state_of (setup calibration_env 20 (power_on ∅))))
    as (_ & _ & _ & _ & Hread & Hval).
  - reflexivity.
  - reflexivity.
  - apply returns_Done. vm_compute. reflexivity.
  - split; [vm_compute; reflexivity |].
    split; [vm_compute; reflexivity |].
    split; [exact Hread | exact Hval].
Defined.

Lemma calibration_without_press_witness :
  returns (calibrateFunction idle_env 5 0 (power_on ∅)) = false
  /\ eeprom (state_of (calibrateFunction idle_env 5 0 (power_on ∅))) = ∅
  /\ localValue (state_of (calibrateFunction idle_env 5 0 (power_on ∅)))
     = 220000.
Proof.
  destruct (calibration_without_press idle_env 5 0 (power_on ∅))
    as (Hr & He & Hl & _).
  - intros k. reflexivity.
  - split; [exact Hr |]. split; [exact He | exact Hl].
Defined.

(** * Further properties of the sketch *)

(** ** More on the EEPROM codec *)

Lemma EEPROMWrite_cells_other a v e a' :
  a' < a \/ a + 3 < a' ->
  EEPROM.read (EEPROMWrite_cells a v e) a' = EEPROM.read e a'.
Proof.
  intros H. unfold EEPROMWrite_cells.
  rewrite !EEPROM_read_write_ne by lia. reflexivity.
Qed.

Lemma EEPROMRead_cells_ext a e e' :
  (forall k, 0 <= k <= 3 -> EEPROM.read e' (a + k) = EEPROM.read e (a + k)) ->
  EEPROMRead_cells a e' = EEPROMRead_cells a e.
Proof.
  intros H. unfold EEPROMRead_cells.
  rewrite <- (Z.add_0_r a) at 1 5.
  rewrite !H by lia. by rewrite Z.add_0_r.
Qed.

(** X1. [EEPROMWrite] to the slot of one preset ([address[i]], i = 0, 1,
    2) does not change what [EEPROMRead] returns for the slot of another
    preset. *)
Theorem EEPROM_slots_independent (i j v : Z) (m : Machine) :
  0 <= i <= 2 -> 0 <= j <= 2 -> i <> j ->
  EEPROMRead_cells (array_get address j)
    (eeprom (state_of (EEPROMWrite (array_get address i) v m)))
  = EEPROMRead_cells (array_get address j) (eeprom m)
  /\ EEPROMRead (array_get address j)
       (state_of (EEPROMWrite (array_get address i) v m))
     = Done (EEPROMRead_cells (array_get address j) (eeprom m))
            (state_of (EEPROMWrite (array_get address i) v m)).
Proof.
  intros Hi Hj Hij.
  assert (H : EEPROMRead_cells (array_get address j)
                (eeprom (state_of (EEPROMWrite (array_get address i) v m)))
              = EEPROMRead_cells (array_get address j) (eeprom m)).
  { cbn [EEPROMWrite modify state_of eeprom set_eeprom].
    apply EEPROMRead_cells_ext. intros k Hk. apply EEPROMWrite_cells_other.
    assert (i = 0 \/ i = 1 \/ i = 2) as [-> | [-> | ->]] by lia;
      assert (j = 0 \/ j = 1 \/ j = 2) as [-> | [-> | ->]] by lia;
      try contradiction;
      change (array_get address 0) with 0;
      change (array_get address 1) with 4;
      change (array_get address 2) with 8; lia. }
  split; [exact H |].
  unfold EEPROMRead. cbn [bind get ret]. by rewrite H.
Qed.

Lemma EEPROM_slots_independent_witness :
  EEPROMRead_cells (array_get address 2)
    (eeprom (state_of (EEPROMWrite (array_get address 1) (-123456)
                                   (power_on ∅))))
  = EEPROMRead_cells (array_get address 2) (eeprom (power_on ∅)).
Proof.
  destruct (EEPROM_slots_independent 1 2 (-123456) (power_on ∅)) as (H & _);
    [lia | lia | lia |].
  exact H.
Defined.

Lemma to_long_bytes b0 b1 b2 b3 :
  0 <= b0 < 256 -> 0 <= b1 < 256 -> 0 <= b2 < 256 -> 0 <= b3 < 256 ->
  let v := Int.to_long (b0 + 2 ^ 8 * b1 + 2 ^ 16 * b2 + 2 ^ 24 * b3) in
  v mod 256 = b0 /\ (v / 2 ^ 8) mod 256 = b1
  /\ (v / 2 ^ 16) mod 256 = b2 /\ (v / 2 ^ 24) mod 256 = b3.
Proof.
  intros H0 H1 H2 H3. cbv zeta. unfold Int.to_long.
  change (2 ^ 8) with 256. change (2 ^ 16) with 65536.
  change (2 ^ 24) with 16777216. change (2 ^ 31) with 2147483648.
  change (2 ^ 32) with 4294967296.
  set (x := b0 + 256 * b1 + 65536 * b2 + 16777216 * b3).
  assert (Hx : 0 <= x < 4294967296) by (subst x; lia).
  assert (E : (x + 2147483648) mod 4294967296 - 2147483648 = x
              \/ (x + 2147483648) mod 4294967296 - 2147483648 = x - 4294967296).
  { destruct (Z.lt_ge_cases x 2147483648).
    - left. rewrite Z.mod_small; lia.
    - right. replace (x + 2147483648) with ((x - 2147483648) + 1 * 4294967296) by lia.
      rewrite Z.mod_add by lia. rewrite Z.mod_small; lia. }
  destruct E as [-> | ->]; subst x; repeat split;
    Z.div_mod_to_equations; lia.
Qed.

(** X2. [EEPROMRead] of four cells that hold bytes returns the 32-bit
    two's-complement value of the little-endian word, a value in the range
    of [long]; writing that value back with [EEPROMWrite] at the same
    address leaves every cell of the EEPROM as it was; and four erased
    cells (255) read as -1, the threshold of Manual. *)
Theorem EEPROM_read_then_write (a : Z) (e : gmap Z Z) :
  (forall k, 0 <= k <= 3 -> 0 <= EEPROM.read e (a + k) < 256) ->
  let v := EEPROMRead_cells a e in
  Int.long_range v
  /\ v = Int.to_long (EEPROM.read e a + 2 ^ 8 * EEPROM.read e (a + 1)
                      + 2 ^ 16 * EEPROM.read e (a + 2)
                      + 2 ^ 24 * EEPROM.read e (a + 3))
  /\ (forall a', EEPROM.read (EEPROMWrite_cells a v e) a' = EEPROM.read e a')
  /\ ((forall k, 0 <= k <= 3 -> EEPROM.read e (a + k) = 255) -> v = -1).
Proof.
  intros Hb. cbv zeta.
  pose proof (Hb 0 ltac:(lia)) as H0. rewrite Z.add_0_r in H0.
  pose proof (Hb 1 ltac:(lia)) as H1.
  pose proof (Hb 2 ltac:(lia)) as H2.
  pose proof (Hb 3 ltac:(lia)) as H3.
  pose proof (EEPROMRead_cells_bytes a e _ _ _ _ eq_refl eq_refl eq_refl eq_refl
                H0 H1 H2 H3) as E.
  rewrite E. split; [apply to_long_range |]. split; [reflexivity |]. split.
  - intros a'.
    destruct (to_long_bytes _ _ _ _ H0 H1 H2 H3) as (B0 & B1 & B2 & B3).
    destruct (EEPROMWrite_cells_layout a
                (Int.to_long (EEPROM.read e a + 2 ^ 8 * EEPROM.read e (a + 1)
                              + 2 ^ 16 * EEPROM.read e (a + 2)
                              + 2 ^ 24 * EEPROM.read e (a + 3))) e)
      as (L0 & L1 & L2 & L3).
    destruct (Z.eq_dec a' a) as [-> | N0]; [by rewrite L0, B0 |].
    destruct (Z.eq_dec a' (a + 1)) as [-> | N1]; [by rewrite L1, B1 |].
    destruct (Z.eq_dec a' (a + 2)) as [-> | N2]; [by rewrite L2, B2 |].
    destruct (Z.eq_dec a' (a + 3)) as [-> | N3]; [by rewrite L3, B3 |].
    apply EEPROMWrite_cells_other. lia.
  - intros Hff.
    pose proof (Hff 0 ltac:(lia)) as F0. rewrite Z.add_0_r in F0.
    rewrite F0, (Hff 1), (Hff 2), (Hff 3) by lia. reflexivity.
Qed.

Lemma EEPROM_read_then_write_witness :
  EEPROMRead_cells 0 ∅ = -1
  /\ forall a', EEPROM.read (EEPROMWrite_cells 0 (EEPROMRead_cells 0 ∅) ∅) a'
                = EEPROM.read ∅ a'.
Proof.
  destruct (EEPROM_read_then_write 0 ∅) as (_ & _ & Hw & Hff).
  - intros k _. vm_compute. split; discriminate || reflexivity.
  - split; [| exact Hw]. apply Hff. intros k _. reflexivity.
Defined.

(** ** Thresholded dispensing and the buttons *)

Lemma log_readings_env env env' :
  (forall k, scale_read env' k = scale_read env k) ->
  forall count m, log_readings env' count m = log_readings env count m.
Proof.
  intros Hs. induction count as [| count IH]; intros m; [reflexivity |].
  cbn [log_readings]. unfold bind, scale_dot_read. rewrite Hs, IH. reflexivity.
Qed.

Lemma median_loop_env env env' t :
  (forall k, scale_read env' k = scale_read env k) ->
  forall fuel m, median_loop env' fuel t m = median_loop env fuel t m.
Proof.
  intros Hs. induction fuel as [| fuel IH]; intros m; [reflexivity |].
  cbn [median_loop]. unfold median_pass, bind.
  rewrite (log_readings_env env env' Hs).
  destruct (log_readings env n m) as [l m1 | m1]; [| reflexivity].
  cbn [ret]. destruct (_ >? 0); [apply IH | reflexivity].
Qed.

Lemma median_loop_buttons env t :
  forall fuel m,
    n_DISPENSE (state_of (median_loop env fuel t m)) = n_DISPENSE m
    /\ n_MODE (state_of (median_loop env fuel t m)) = n_MODE m.
Proof.
  induction fuel as [| fuel IH]; intros m; [by split |].
  cbn [median_loop]. unfold bind. rewrite median_pass_eq.
  destruct (_ >? 0); [| by split].
  apply (IH (set_polls _ _ _ _ m)).
Qed.

(** X3. [control(t)] with a threshold [t] other than -1 never polls a
    button: it runs to the same outcome and state under any two
    environments that agree on [scale.read()], and the numbers of polls of
    the DISPENSE and MODE pins are after it what they were before, whether
    it has returned or is still dispensing.  Releasing the DISPENSE button
    does not stop a thresholded dispense. *)
Theorem thresholded_dispense_ignores_buttons (env : Env) (t : Z) :
  t <> -1 ->
  (forall env',
      (forall k, scale_read env' k = scale_read env k) ->
      forall fuel m, control env' fuel t m = control env fuel t m)
  /\ (forall fuel m,
         n_DISPENSE (state_of (control env fuel t m)) = n_DISPENSE m
         /\ n_MODE (state_of (control env fuel t m)) = n_MODE m).
Proof.
  intros Ht. split.
  - intros env' Hs fuel m. rewrite !control_thresholded by assumption.
    unfold bind. rewrite (median_loop_env env env' t Hs). reflexivity.
  - intros fuel m. rewrite control_thresholded by assumption.
    pose proof (median_loop_buttons env t fuel (logged t m)) as Hb.
    unfold bind.
    destruct (median_loop env fuel t (logged t m)) as [[] m1 | m1];
      cbn [state_of] in Hb; [| exact Hb].
    cbn [digitalWrite modify get].
    set (m2 := set_outputs _ _ _).
    destruct (updateMode_polls (index m2) m2) as (_ & _ & _ & Hd & Hm & _).
    rewrite Hd, Hm. subst m2. exact Hb.
Qed.

Lemma thresholded_dispense_ignores_buttons_witness :
  220000 <> -1
  /\ n_DISPENSE (state_of (control dispense_env 5 220000 (power_on ∅)))
     = n_DISPENSE (power_on ∅)
  /\ n_MODE (state_of (control dispense_env 5 220000 (power_on ∅)))
     = n_MODE (power_on ∅).
Proof.
  assert (H : 220000 <> -1) by lia.
  split; [exact H |].
  destruct (thresholded_dispense_ignores_buttons dispense_env 220000 H)
    as [_ Hb].
  exact (Hb 5%nat (power_on ∅)).
Defined.

(** ** More on the debouncer *)

Lemma debounce_0xf000 s : debounce_out s = 1 -> s = 0xf000.
Proof.
  unfold debounce_out. destruct (Z.eqb_spec s 0xf000); [done | discriminate].
Qed.

Lemma quiet_0xf000 : quiet 0xf000.
Proof. intros i Hi. rewrite testbit_0xf000 by lia. destruct (Z.leb_spec 12 i); [lia | reflexivity]. Qed.

Lemma quiet_fresh level s :
  quiet s -> fresh 1 (debounce_next (Z.b2z level) s).
Proof.
  intros H i Hi. rewrite debounce_next_bits by lia.
  destruct (Z.ltb_spec i 13), (Z.eqb_spec i 0); try lia.
  apply H. lia.
Qed.

Lemma fresh_silent w :
  forall k s j,
    0 <= k -> fresh k s -> (Z.of_nat j + k <= 11) ->
    nth j (polls w s) 0 = 0.
Proof.
  induction w as [| l w IH]; intros k s j Hk Hf Hj; [by destruct j |].
  cbn [polls]. destruct j as [| j]; cbn [nth].
  - apply debounce_silent. intros (_ & H11 & _).
    rewrite Hf in H11 by lia. discriminate.
  - apply (IH (k + 1)); [lia | by apply fresh_step | lia].
Qed.

Lemma quiet_silent w s j :
  quiet s -> (j <= 11)%nat -> nth j (polls w s) 0 = 0.
Proof.
  intros Hq Hj. destruct w as [| l w]; [by destruct j |].
  cbn [polls]. destruct j as [| j]; cbn [nth].
  - apply debounce_silent. intros (_ & H11 & _).
    rewrite Hq in H11 by lia. discriminate.
  - apply (fresh_silent w 1); [lia | by apply quiet_fresh | lia].
Qed.

(** X4. After a call of [DebounceSwitch] that returns 1 (at poll [p] of
    any sequence of MODE levels, from any register value), none of the next
    twelve calls returns 1: two triggers are at least thirteen polls
    apart. *)
Theorem debounce_dead_time (levels : list bool) (s : Z) (p q : nat) :
  nth p (polls levels s) 0 = 1 ->
  (p < q <= p + 12)%nat ->
  nth q (polls levels s) 0 = 0.
Proof.
  revert s p q. induction levels as [| l levels IH]; intros s p q Hp Hq.
  - destruct p; discriminate.
  - cbn [polls] in *. destruct q as [| q]; [lia |]. cbn [nth].
    destruct p as [| p]; cbn [nth] in Hp.
    + apply quiet_silent; [| lia].
      rewrite (debounce_0xf000 _ Hp). exact quiet_0xf000.
    + apply (IH _ p); [exact Hp | lia].
Qed.

Lemma debounce_dead_time_witness :
  nth 13 (polls (false :: repeat true 12 ++ [false]) 0) 0 = 0.
Proof.
  apply (debounce_dead_time (false :: repeat true 12 ++ [false]) 0 12 13).
  - reflexivity.
  - lia.
Defined.

Lemma polls_length levels s : length (polls levels s) = length levels.
Proof.
  revert s. induction levels as [| l levels IH]; intros s; [reflexivity |].
  cbn. by rewrite IH.
Qed.

Lemma nth_polls_window pre w post s :
  length w = 13%nat ->
  nth (length pre + 12) (polls (pre ++ w ++ post) s) 0
  = nth 12 (polls w (run pre s)) 0.
Proof.
  intros Hw. rewrite polls_app.
  rewrite app_nth2 by (rewrite polls_length; lia).
  rewrite polls_length.
  replace (length pre + 12 - length pre)%nat with 12%nat by lia.
  rewrite polls_app. apply app_nth1. rewrite polls_length. lia.
Qed.

Ltac debounce_bits :=
  repeat (rewrite debounce_next_bits by lia;
          simpl (_ <? _); simpl (_ =? _); simpl (_ - _); cbv iota).

(** X5. The result of a call of [DebounceSwitch] is decided by the MODE
    levels of the last thirteen polls alone: whatever the register held
    and whatever is polled before and after, the call at the end of a
    window of thirteen polls returns 1 if and only if the window is one
    LOW (pressed) poll followed by twelve HIGH (released) polls. *)
Theorem debounce_window (s : Z) (pre w post : list bool) :
  length w = 13%nat ->
  nth (length pre + 12) (polls (pre ++ w ++ post) s) 0 = 1
  <-> w = false :: repeat true 12.
Proof.
  intros Hw. rewrite nth_polls_window by assumption.
  destruct w as [| x0 [| x1 [| x2 [| x3 [| x4 [| x5 [| x6 [| x7 [| x8 [| x9
    [| x10 [| x11 [| x12 [| x13 w]]]]]]]]]]]]]]; try discriminate.
  cbn [polls nth repeat]. rewrite debounce_triggers. split.
  - intros (H12 & H11 & Hlow).
    pose proof (Hlow 0 ltac:(lia)) as B0. pose proof (Hlow 1 ltac:(lia)) as B1.
    pose proof (Hlow 2 ltac:(lia)) as B2. pose proof (Hlow 3 ltac:(lia)) as B3.
    pose proof (Hlow 4 ltac:(lia)) as B4. pose proof (Hlow 5 ltac:(lia)) as B5.
    pose proof (Hlow 6 ltac:(lia)) as B6. pose proof (Hlow 7 ltac:(lia)) as B7.
    pose proof (Hlow 8 ltac:(lia)) as B8. pose proof (Hlow 9 ltac:(lia)) as B9.
    pose proof (Hlow 10 ltac:(lia)) as B10. clear Hlow.
    revert H11 B0 B1 B2 B3 B4 B5 B6 B7 B8 B9 B10. debounce_bits.
    subst x12.
    destruct x0; [discriminate |]. destruct x1; [| discriminate].
    destruct x2; [| discriminate]. destruct x3; [| discriminate].
    destruct x4; [| discriminate]. destruct x5; [| discriminate].
    destruct x6; [| discriminate]. destruct x7; [| discriminate].
    destruct x8; [| discriminate]. destruct x9; [| discriminate].
    destruct x10; [| discriminate]. destruct x11; [| discriminate].
    reflexivity.
  - intros E. injection E as -> -> -> -> -> -> -> -> -> -> -> -> ->.
    split; [reflexivity |]. split.
    + debounce_bits. reflexivity.
    + intros i Hi.
      assert (i = 0 \/ i = 1 \/ i = 2 \/ i = 3 \/ i = 4 \/ i = 5 \/ i = 6
              \/ i = 7 \/ i = 8 \/ i = 9 \/ i = 10) as Hc by lia.
      repeat (destruct Hc as [-> | Hc]); try subst i; debounce_bits; reflexivity.
Qed.

Lemma debounce_window_witness :
  nth (2 + 12) (polls ([false; true] ++ (false :: repeat true 12) ++ [false]) 0) 0
  = 1.
Proof.
  apply (debounce_window 0 [false; true] (false :: repeat true 12) [false]);
    reflexivity.
Defined.

(** ** Boot *)

Lemma setup_eq env fuel m :
  setup env fuel m
  = bind (setup_prefix env fuel)
         (fun _ => load_thresholds ;; after_load env fuel) m.
Proof.
  unfold setup, setup_prefix, after_load, bind.
  destruct (digitalRead env DISPENSE m) as [d m1 | m1]; [| reflexivity].
  destruct (if d =? 0 then _ else _) as [both m2 | m2]; [| reflexivity].
  destruct both; [| reflexivity].
  destruct (selection env fuel m2) as [s m3 | m3]; [| reflexivity].
  destruct (modify (set_selectedMode s) m3) as [[] m4 | m4]; [| reflexivity].
  destruct (calibrateFunction env fuel s m4) as [[] m5 | m5]; reflexivity.
Qed.

Lemma setup_prefix_same {T} (f : Machine -> T) env fuel :
  primitive_frame (same f) env ->
  (forall s m, f (set_State s m) = f m) ->
  (forall s u d mo m, f (set_polls s u d mo m) = f m) ->
  (forall x y m, f (set_locals x y m) = f m) ->
  (forall s m, f (set_selectedMode s m) = f m) ->
  (forall i v, preserves (same f) (EEPROMWrite (array_get address i) v)) ->
  preserves (same f) (setup_prefix env fuel).
Proof.
  intros PF HS Hp Hl Hsel He. unfold setup_prefix. frame.
  - by apply selection_same.
  - intros m. apply Hsel.
  - unfold calibrateFunction. frame.
    + intros m. apply Hl.
    + by apply capture_loop_same.
Qed.

Lemma loops_same {T} (f : Machine -> T) env fuel k :
  primitive_frame (same f) env ->
  (forall s m, f (set_State s m) = f m) ->
  (forall t m, f (logged t m) = f m) ->
  (forall i m, f (set_index i m) = f m) ->
  preserves (same f) (loops env fuel k).
Proof.
  intros PF HS HL HI. apply (loops_preserves _ _ PF).
  - intros s m. apply HS.
  - intros t m. apply HL.
  - intros m. apply HI.
Qed.

(** X6. Once [setup] has returned, in every state the sketch reaches
    (after [setup] and any number [k] of iterations of [loop], the last
    complete or not) the table [val] holds in entries 0, 1, 2 what
    [EEPROMRead] decodes from the slots at 0, 4, 8 of the EEPROM as it is
    then, and -1 in entry 3: a calibration done in [setup] is loaded
    before the first iteration, and [loop] writes neither. *)
Theorem thresholds_mirror_EEPROM (env : Env) (e : gmap Z Z) (fuel k : nat) :
  returns (setup env fuel (power_on e)) = true ->
  mirrors (state_of (sketch env fuel k (power_on e)))
  /\ array_get (val (state_of (sketch env fuel k (power_on e)))) 3 = -1.
Proof.
  intros Hret.
  assert (Hm : mirrors (state_of (sketch env fuel k (power_on e)))).
  { unfold sketch. unfold bind at 1.
    destruct (setup env fuel (power_on e)) as [[] m3 | m3] eqn:Hsetup;
      [clear Hret | discriminate].
    rewrite setup_eq in Hsetup.
    apply bind_returns in Hsetup as ([] & m1 & Hpre & Hsetup).
    apply bind_returns in Hsetup as ([] & m2 & Hload & Hafter).
    pose proof (setup_prefix_same val env fuel (val_frame env)
                  ltac:(reflexivity) ltac:(reflexivity) ltac:(reflexivity)
                  ltac:(reflexivity) ltac:(intros i v m; reflexivity)
                  (power_on e)) as Hv1.
    rewrite Hpre in Hv1. unfold same in Hv1. cbn in Hv1.
    rewrite (load_thresholds_eq m1 _ _ _ _ Hv1) in Hload.
    injection Hload as Hload.
    pose proof (after_load_same val env fuel (val_frame env)
                  ltac:(reflexivity) m2) as Hv3.
    pose proof (after_load_same eeprom env fuel (eeprom_frame env)
                  ltac:(reflexivity) m2) as He3.
    rewrite Hafter in Hv3, He3. unfold same in Hv3, He3. subst m2.
    cbn in Hv3, He3.
    pose proof (loops_same val env fuel k (val_frame env)
                  ltac:(reflexivity) ltac:(reflexivity) ltac:(reflexivity) m3)
      as Hv4.
    pose proof (loops_same eeprom env fuel k (eeprom_frame env)
                  ltac:(reflexivity) ltac:(reflexivity) ltac:(reflexivity) m3)
      as He4.
    unfold same in Hv4, He4. unfold mirrors.
    rewrite Hv4, He4, Hv3, He3. reflexivity. }
  split; [exact Hm |]. rewrite Hm. reflexivity.
Qed.

Lemma thresholds_mirror_EEPROM_witness :
  mirrors (state_of (sketch manual_env 2 39 (power_on ∅))).
Proof.
  destruct (thresholds_mirror_EEPROM manual_env ∅ 2 39) as (H & _).
  - vm_compute. reflexivity.
  - exact H.
Defined.

Lemma setup_prefix_skipped env fuel e :
  pin_DISPENSE env 0 = true \/ pin_MODE env 0 = true ->
  exists mo,
    setup_prefix env fuel (power_on e)
    = Done tt (set_polls 0 0 1 mo (power_on e)).
Proof.
  intros H. unfold setup_prefix, bind. cbn [digitalRead power_on n_DISPENSE].
  destruct (pin_DISPENSE env 0) eqn:Hd; cbn [Z.b2z Z.eqb ret].
  - by exists 0%nat.
  - destruct H as [H | H]; [discriminate |].
    cbn [digitalRead n_MODE set_polls power_on]. rewrite H. by exists 1%nat.
Qed.

(** X7. Unless both buttons read LOW at the first polls of [setup],
    [setup] does not calibrate: the EEPROM is unchanged, no preset is
    selected and [scale.get_units] is not called.  With no button held at
    power-up [setup] returns after two polls of DISPENSE and one of MODE,
    with the thresholds decoded from the EEPROM in [val], index 0, relay
    and indicator off, and [VOLUME[0]] shown once. *)
Theorem boot_without_calibration (env : Env) (e : gmap Z Z) (fuel : nat) :
  (pin_DISPENSE env 0 = true \/ pin_MODE env 0 = true ->
   let m' := state_of (setup env fuel (power_on e)) in
   eeprom m' = e /\ selectedMode m' = 0 /\ n_units m' = 0%nat)
  /\ (pin_DISPENSE env 0 = true -> pin_MODE env 0 = true ->
      pin_DISPENSE env 1 = true ->
      setup env fuel (power_on e)
      = Done tt
          {| val := [EEPROMRead_cells 0 e; EEPROMRead_cells 4 e;
                     EEPROMRead_cells 8 e; -1];
             index := 0; selectedMode := 0; State := 0; flag := 0;
             localValue := 0; eeprom := e;
             LED_BUILTIN := false; RELAY_PIN := false;
             n_scale := 0; n_units := 0; n_DISPENSE := 2; n_MODE := 1;
             control_calls := []; VOLUME_reads := [0] |}).
Proof.
  split.
  - intros H. cbv zeta.
    destruct (setup_prefix_skipped env fuel e H) as (mo & Hpre).
    rewrite setup_eq. rewrite (bind_Done _ _ _ _ _ Hpre).
    rewrite (bind_Done _ _ _ _ _
               (load_thresholds_eq (set_polls 0 0 1 mo (power_on e))
                  _ _ _ _ eq_refl)).
    set (m2 := set_val _ _).
    pose proof (after_load_same eeprom env fuel (eeprom_frame env)
                  ltac:(reflexivity) m2) as He.
    pose proof (after_load_same selectedMode env fuel (selectedMode_frame env)
                  ltac:(reflexivity) m2) as Hs.
    pose proof (after_load_same n_units env fuel (n_units_frame env)
                  ltac:(reflexivity) m2) as Hu.
    unfold same in He, Hs, Hu. rewrite He, Hs, Hu. by subst m2.
  - intros Hd Hm Hd1.
    assert (Hpre : setup_prefix env fuel (power_on e)
                   = Done tt (set_polls 0 0 1 0 (power_on e))).
    { unfold setup_prefix, bind. cbn [digitalRead power_on n_DISPENSE].
      rewrite Hd. reflexivity. }
    rewrite setup_eq. rewrite (bind_Done _ _ _ _ _ Hpre).
    rewrite (bind_Done _ _ _ _ _
               (load_thresholds_eq (set_polls 0 0 1 0 (power_on e))
                  _ _ _ _ eq_refl)).
    unfold after_load, bind.
    cbn [digitalRead n_MODE n_DISPENSE set_polls set_val power_on].
    rewrite Hm, Hd1. reflexivity.
Qed.

Lemma boot_without_calibration_witness :
  eeprom (state_of (setup manual_env 2 (power_on ∅))) = ∅
  /\ returns (setup manual_env 2 (power_on ∅)) = true.
Proof.
  destruct (boot_without_calibration manual_env ∅ 2) as (Hskip & Hboot).
  split.
  - apply Hskip. left. reflexivity.
  - rewrite Hboot; reflexivity.
Defined.

(** ** The EEPROM cells the sketch can write *)

Section SlotFrame.

Context (R : relation Machine) `{!PreOrder R} (env : Env).
Hypothesis PF : primitive_frame R env.
Hypothesis HState : forall s, preserves R (modify (set_State s)).
Hypothesis Hlogged : forall t, preserves R (modify (logged t)).
Hypothesis Hindex :
  preserves R (modify (fun m => set_index (next_index (index m)) m)).
Hypothesis Hunits : preserves R (scale_dot_get_units env).
Hypothesis Hcapture :
  forall u, preserves R
              (modify (fun m => set_locals (if flag m =? 0 then 1 else flag m)
                                           (Int.to_long (u * -1)) m)).
Hypothesis Hlocals :
  forall i, preserves R (modify (fun m => set_locals 0 (array_get (val m) i) m)).
Hypothesis Hslot :
  forall i v, preserves R (EEPROMWrite (array_get address i) v).
Hypothesis Hval :
  forall i v, preserves R (modify (fun m => set_val (array_set (val m) i v) m)).
Hypothesis HselectedMode : forall s, preserves R (modify (set_selectedMode s)).

Lemma calibrateFunction_slot fuel i : preserves R (calibrateFunction env fuel i).
Proof.
  unfold calibrateFunction. frame.
  apply (capture_loop_preserves _ _ PF).
  intros fuel'. by apply (hold_loop_preserves _ _ PF).
Qed.

Lemma sketch_slot fuel k : preserves R (sketch env fuel k).
Proof.
  unfold sketch, setup. frame.
  all: first [ by apply (selection_preserves _ _ PF)
             | apply calibrateFunction_slot
             | by apply (load_thresholds_preserves R)
             | by apply (inspect_loop_preserves _ _ PF)
             | by apply (loops_preserves _ _ PF) ].
Qed.

End SlotFrame.

(** X8. The sketch writes no EEPROM cell outside the twelve cells 0..11
    of the three preset slots: in every state it reaches from power-up, a
    cell at an address below 0 or from 12 on holds what it held at
    power-up.  Iterations of [loop] write no EEPROM cell at all and do not
    change the table [val]. *)
Theorem EEPROM_writes_confined :
  (forall env e fuel k a,
      a < 0 \/ 12 <= a ->
      EEPROM.read (eeprom (state_of (sketch env fuel k (power_on e)))) a
      = EEPROM.read e a)
  /\ (forall env fuel k m,
         eeprom (state_of (loops env fuel k m)) = eeprom m
         /\ val (state_of (loops env fuel k m)) = val m).
Proof.
  split.
  - intros env e fuel k a Ha.
    apply (sketch_slot (same (fun m => EEPROM.read (eeprom m) a)) env);
      try untouched.
    + by apply primitive_frame_same.
    + intros i v m. cbn [EEPROMWrite modify state_of]. unfold same.
      cbn [eeprom set_eeprom]. apply EEPROMWrite_cells_other.
      assert (H : array_get address i = 0 \/ array_get address i = 4
                  \/ array_get address i = 8).
      { unfold array_get, address.
        destruct (Z.to_nat i) as [| [| [| j]]]; cbn; auto. }
      lia.
  - intros env fuel k m. split.
    + by apply (loops_same eeprom env fuel k (eeprom_frame env)).
    + by apply (loops_same val env fuel k (val_frame env)).
Qed.

Lemma EEPROM_writes_confined_witness :
  EEPROM.read
    (eeprom (state_of (sketch calibration_env 20 3 (power_on ∅)))) 12
  = EEPROM.read ∅ 12.
Proof.
  destruct EEPROM_writes_confined as (H & _).
  apply (H calibration_env ∅ 20%nat 3%nat 12). lia.
Defined.

(** ** Selecting the preset to calibrate *)

Lemma updateMode_state i m :
  exists m',
    updateMode i m = Done tt m'
    /\ State m' = State m /\ n_DISPENSE m' = n_DISPENSE m
    /\ n_MODE m' = n_MODE m.
Proof.
  unfold updateMode. destruct (i =? 3); eexists; (split; [reflexivity |]);
    by repeat split.
Qed.

Lemma triggered_cons out outs :
  triggered (out :: outs)
  = ((if (out =? 1)%Z then 1 else 0) + triggered outs)%nat.
Proof.
  unfold triggered. cbn [count_occ].
  destruct (Z.eq_dec out 1) as [-> | N]; [reflexivity |].
  by destruct (Z.eqb_spec out 1).
Qed.

Lemma selection_step i sw :
  0 <= i <= 2 ->
  (if sw =? 1 then (if i + 1 >? 2 then 0 else i + 1) else i)
  = (i + Z.of_nat (if (sw =? 1)%Z then 1 else 0)) mod 3.
Proof.
  intros Hi. destruct (sw =? 1).
  - destruct (Z.gtb_spec (i + 1) 2).
    + replace i with 2 by lia. reflexivity.
    + rewrite Z.mod_small; lia.
  - rewrite Z.mod_small; lia.
Qed.

Lemma polls_seq_cons (f : nat -> bool) c k s :
  polls (map f (seq c (S k))) s
  = debounce_out (debounce_next (Z.b2z (f c)) s)
    :: polls (map f (seq (S c) k)) (debounce_next (Z.b2z (f c)) s).
Proof. reflexivity. Qed.

(** State after one iteration of the selection loop. *)
Lemma selection_loop_step env fuel i m :
  let s1 := debounce_next (Z.b2z (pin_MODE env (n_MODE m))) (State m) in
  let i' := if debounce_out s1 =? 1
            then (if i + 1 >? 2 then 0 else i + 1) else i in
  let m3 := state_of
              (updateMode i
                 (set_polls (n_scale m) (n_units m) (S (n_DISPENSE m))
                            (S (n_MODE m)) (set_State s1 m))) in
  selection_loop env (S fuel) i m
  = if pin_DISPENSE env (n_DISPENSE m)
    then selection_loop env fuel i' m3 else Done i' m3.
Proof.
  cbv zeta. cbn [selection_loop]. unfold updateMode.
  destruct (i =? 3);
    cbn [bind DebounceSwitch digitalRead get modify ret lcd_print_VOLUME
         state_of State set_polls set_State set_history
         n_DISPENSE n_MODE n_scale n_units];
    destruct (pin_DISPENSE env (n_DISPENSE m)); reflexivity.
Qed.

(** X9. The loop of [selection] returns at its first iteration that
    polls DISPENSE LOW: if the pin reads HIGH at the next [k] polls and
    LOW at the one after, the loop returns after [k + 1] iterations,
    having polled each button [k + 1] times, and the preset it returns is
    the preset it started with advanced, modulo 3, by the number of times
    [DebounceSwitch] has triggered in those iterations, the last
    included. *)
Theorem selection_loop_confirms (env : Env) (k : nat) :
  forall fuel i m,
    (k < fuel)%nat ->
    0 <= i <= 2 ->
    (forall j, (j < k)%nat -> pin_DISPENSE env (n_DISPENSE m + j) = true) ->
    pin_DISPENSE env (n_DISPENSE m + k) = false ->
    exists m',
      selection_loop env fuel i m
      = Done ((i + Z.of_nat
                     (triggered
                        (polls (map (pin_MODE env) (seq (n_MODE m) (S k)))
                               (State m)))) mod 3) m'
      /\ n_DISPENSE m' = (n_DISPENSE m + S k)%nat
      /\ n_MODE m' = (n_MODE m + S k)%nat.
Proof.
  induction k as [| k IH]; intros fuel i m Hfuel Hi Hhigh Hlow;
    (destruct fuel as [| fuel]; [lia |]);
    rewrite selection_loop_step; cbv zeta;
    set (s1 := debounce_next _ _);
    set (m2 := set_polls _ _ _ _ _);
    destruct (updateMode_state i m2) as (m3 & E3 & HS3 & HD3 & HM3);
    rewrite E3; cbn [state_of].
  - rewrite Nat.add_0_r in Hlow. rewrite Hlow.
    exists m3. split.
    + f_equal. rewrite selection_step by assumption.
      cbn [seq map polls]. fold s1. rewrite triggered_cons.
      change (triggered []) with 0%nat. rewrite Nat.add_0_r. reflexivity.
    + rewrite HD3, HM3. subst m2. cbn. split; lia.
  - pose proof (Hhigh 0%nat ltac:(lia)) as H0. rewrite Nat.add_0_r in H0.
    rewrite H0.
    destruct (IH fuel
                (if debounce_out s1 =? 1
                 then if i + 1 >? 2 then 0 else i + 1 else i) m3)
      as (m' & E & HD & HM).
    + lia.
    + rewrite selection_step by assumption.
      pose proof (Z.mod_pos_bound
                    (i + Z.of_nat (if (debounce_out s1 =? 1)%Z then 1 else 0)) 3).
      lia.
    + intros j Hj. rewrite HD3. subst m2. cbn.
      replace (S (n_DISPENSE m + j)) with (n_DISPENSE m + S j)%nat by lia.
      apply Hhigh. lia.
    + rewrite HD3. subst m2. cbn.
      replace (S (n_DISPENSE m + k)) with (n_DISPENSE m + S k)%nat by lia.
      exact Hlow.
    + exists m'. split.
      * rewrite E. f_equal.
        rewrite selection_step by assumption.
        rewrite HS3, HM3. subst m2. cbn [State set_polls set_State n_MODE].
        rewrite (polls_seq_cons _ (n_MODE m) (S k)). fold s1.
        rewrite triggered_cons.
        rewrite Zplus_mod_idemp_l. f_equal. lia.
      * rewrite HD, HM, HD3, HM3. subst m2. cbn. split; lia.
Qed.

Lemma selection_loop_confirms_witness :
  exists m',
    selection_loop calibration_env 20 0
      (set_polls 0 0 3 2 (power_on ∅))
    = Done ((0 + Z.of_nat
                   (triggered
                      (polls (map (pin_MODE calibration_env) (seq 2 13)) 0)))
            mod 3) m'
    /\ n_DISPENSE m' = (3 + 13)%nat
    /\ n_MODE m' = (2 + 13)%nat.
Proof.
  apply (selection_loop_confirms calibration_env 12 20 0
           (set_polls 0 0 3 2 (power_on ∅))).
  - lia.
  - lia.
  - intros j Hj. cbn.
    do 12 (destruct j as [| j]; [reflexivity |]). lia.
  - reflexivity.
Defined.

(** ** The samples of a calibration *)

Lemma hold_loop_samples env h :
  forall fuel m,
    (h < fuel)%nat ->
    (forall k, (k < h)%nat -> pin_MODE env (n_MODE m + k) = false) ->
    pin_MODE env (n_MODE m + h) = true ->
    exists m',
      hold_loop env fuel m = Done tt m'
      /\ n_units m' = (n_units m + h)%nat
      /\ n_MODE m' = S (n_MODE m + h)
      /\ (h = 0%nat -> flag m' = flag m)
      /\ ((0 < h)%nat -> flag m' <> 0).
Proof.
  intros fuel m Hfuel Hlow Hhigh.
  destruct (hold_loop_release env h fuel m Hfuel Hlow Hhigh)
    as (m' & E & Hn & Hf0 & Hf).
  exists m'. split; [exact E |]. split; [| split; [exact Hn |]].
  2:{ split; [exact Hf0 |]. intros Hh. apply Hf. by left. }
  clear Hn Hf0 Hf. revert fuel m m' Hfuel Hlow Hhigh E.
  induction h as [| h IH]; intros fuel m m' Hfuel Hlow Hhigh E;
    (destruct fuel as [| fuel]; [lia |]); cbn [hold_loop] in E;
    unfold bind at 1 in E; cbn [digitalRead] in E.
  - rewrite Nat.add_0_r in Hhigh. rewrite Hhigh in E.
    cbn [Z.b2z Z.eqb ret] in E. injection E as <-. cbn. lia.
  - pose proof (Hlow 0%nat ltac:(lia)) as H0. rewrite Nat.add_0_r in H0.
    rewrite H0 in E.
    cbn [Z.b2z Z.eqb bind digitalWrite modify scale_dot_get_units] in E.
    apply IH in E.
    + cbn in E. lia.
    + lia.
    + intros k Hk. cbn.
      replace (S (n_MODE m + k)) with (n_MODE m + S k)%nat by lia.
      apply Hlow. lia.
    + cbn. replace (S (n_MODE m + h)) with (n_MODE m + S h)%nat by lia.
      exact Hhigh.
Qed.

Lemma capture_loop_samples env a :
  forall fuel m h,
    flag m = 0 ->
    (1 <= h)%nat ->
    (a + h + 1 < fuel)%nat ->
    (forall k, (k < a)%nat -> pin_MODE env (n_MODE m + k) = true) ->
    (forall k, (k < h)%nat -> pin_MODE env (n_MODE m + a + k) = false) ->
    pin_MODE env (n_MODE m + a + h) = true ->
    exists m',
      capture_loop env fuel m = Done tt m'
      /\ n_units m' = (n_units m + h)%nat
      /\ n_MODE m' = (n_MODE m + a + h + 1)%nat
      /\ RELAY_PIN m' = false /\ LED_BUILTIN m' = false.
Proof.
  induction a as [| a IH]; intros fuel m h Hflag Hh Hfuel Hhigh Hlow Hrel;
    (destruct fuel as [| fuel]; [lia |]); cbn [capture_loop];
    unfold bind at 1; cbn [get]; rewrite Hflag; cbn [Z.eqb].
  - destruct (hold_loop_samples env h (S fuel) m)
      as (m1 & E & Hu & Hn & _ & Hf).
    + lia.
    + intros k Hk. rewrite <- (Nat.add_0_r (n_MODE m)) at 1.
      apply Hlow. exact Hk.
    + rewrite <- (Nat.add_0_r (n_MODE m)) at 1. exact Hrel.
    + rewrite (bind_Done _ _ _ _ _ E). cbn [bind digitalWrite modify].
      destruct fuel as [| fuel]; [lia |]. cbn [capture_loop].
      unfold bind at 1. cbn [get flag set_outputs].
      destruct (Z.eqb_spec (flag m1) 0) as [F | F].
      * exfalso. apply Hf; [lia | exact F].
      * eexists. split; [reflexivity |]. cbn. repeat split; lia.
  - destruct (hold_loop_samples env 0 (S fuel) m)
      as (m1 & E & Hu & Hn & Hf & _).
    + lia.
    + intros k Hk. lia.
    + apply (Hhigh 0%nat). lia.
    + rewrite (bind_Done _ _ _ _ _ E). cbn [bind digitalWrite modify].
      set (m2 := set_outputs _ _ _).
      destruct (IH fuel m2 h) as (m' & E' & Hu' & Hn' & Hr & Hl).
      * subst m2. cbn. rewrite Hf by reflexivity. exact Hflag.
      * exact Hh.
      * lia.
      * intros k Hk. subst m2. cbn. rewrite Hn.
        replace (S (n_MODE m + 0) + k)%nat with (n_MODE m + S k)%nat by lia.
        apply Hhigh. lia.
      * intros k Hk. subst m2. cbn. rewrite Hn.
        replace (S (n_MODE m + 0) + a + k)%nat
          with (n_MODE m + S a + k)%nat by lia.
        apply Hlow. exact Hk.
      * subst m2. cbn. rewrite Hn.
        replace (S (n_MODE m + 0) + a + h)%nat
          with (n_MODE m + S a + h)%nat by lia.
        exact Hrel.
      * exists m'. split; [exact E' |]. subst m2. cbn in Hu', Hn'.
        repeat split; try assumption; lia.
Qed.

(** X10. [calibrateFunction] samples while the MODE button is held: if
    the MODE pin reads HIGH at the next [a] polls, LOW at the [h >= 1]
    polls after them and HIGH at the next, the function returns, having
    called [scale.get_units] exactly [h] times and polled MODE
    [a + h + 1] times; the candidate [localValue] it ends with is the
    sign-inverted last of those [h] samples, as a [long], and relay and
    indicator are off when it returns. *)
Theorem calibration_samples (env : Env) (fuel : nat) (i : Z) (m : Machine)
    (a h : nat) :
  (1 <= h)%nat ->
  (a + h + 1 < fuel)%nat ->
  (forall k, (k < a)%nat -> pin_MODE env (n_MODE m + k) = true) ->
  (forall k, (k < h)%nat -> pin_MODE env (n_MODE m + a + k) = false) ->
  pin_MODE env (n_MODE m + a + h) = true ->
  exists m',
    calibrateFunction env fuel i m = Done tt m'
    /\ n_units m' = (n_units m + h)%nat
    /\ n_MODE m' = (n_MODE m + a + h + 1)%nat
    /\ localValue m'
       = Int.to_long (scale_get_units env (n_units m + h - 1) * -1)
    /\ RELAY_PIN m' = false /\ LED_BUILTIN m' = false.
Proof.
  intros Hh Hfuel Hhigh Hlow Hrel.
  destruct (capture_loop_samples env a fuel (capture_start i m) h)
    as (m1 & E & Hu & Hn & Hr & Hl); try assumption; [reflexivity |].
  assert (Hcal : calibrateFunction env fuel i m
                 = Done tt (set_eeprom
                              (EEPROMWrite_cells (array_get address i)
                                 (localValue m1) (eeprom m1)) m1)).
  { rewrite calibrateFunction_eq. rewrite (bind_Done _ _ _ _ _ E). reflexivity. }
  eexists. split; [exact Hcal |].
  apply calibrateFunction_returns in Hcal as (_ & Hv & _).
  cbn in Hv, Hu, Hn |- *. rewrite Hu in Hv.
  repeat split; assumption.
Qed.

Lemma calibration_samples_witness :
  exists m',
    calibrateFunction calibration_env 20 1 (set_polls 0 0 16 15 (power_on ∅))
    = Done tt m'
    /\ n_units m' = (0 + 2)%nat
    /\ n_MODE m' = (15 + 1 + 2 + 1)%nat
    /\ localValue m'
       = Int.to_long (scale_get_units calibration_env (0 + 2 - 1) * -1)
    /\ RELAY_PIN m' = false /\ LED_BUILTIN m' = false.
Proof.
  apply (calibration_samples calibration_env 20 1
           (set_polls 0 0 16 15 (power_on ∅)) 1 2).
  - lia.
  - lia.
  - intros k Hk. replace k with 0%nat by lia. reflexivity.
  - intros k Hk. destruct k as [| [| k]]; [reflexivity | reflexivity | lia].
  - reflexivity.
Defined.

(** ** Frame reasoning, one hypothesis per primitive *)

Lemma preserves_bind_post {A B} (R : relation Machine) `{!PreOrder R}
    (c : comp A) (k : A -> comp B) (P : A -> Prop) :
  (forall m a m', c m = Done a m' -> P a) ->
  preserves R c ->
  (forall a, P a -> preserves R (k a)) ->
  preserves R (bind c k).
Proof.
  intros HP Hc Hk m. unfold bind. specialize (Hc m).
  destruct (c m) as [a m1 | m1] eqn:E; cbn [state_of] in *; [| exact Hc].
  etransitivity; [exact Hc | apply Hk, (HP _ _ _ E)].
Qed.

Ltac keep_step :=
  lazymatch goal with
  | |- preserves _ (bind _ _) => apply preserves_bind; [tc_solve | | intros ?]
  | |- preserves _ (ret _) => apply preserves_ret; tc_solve
  | |- preserves _ Spin => apply preserves_Spin; tc_solve
  | |- preserves _ get => apply preserves_get; tc_solve
  | |- preserves _ (if ?b then _ else _) => destruct b
  | |- preserves _ (EEPROMRead _) => unfold EEPROMRead
  | |- preserves _ _ => solve [auto]
  end.

Ltac keep := repeat keep_step.

Section Granular.

Context (R : relation Machine) `{!PreOrder R} (env : Env) (ok : Z -> Prop).
Hypothesis Hread : forall p, preserves R (digitalRead env p).
Hypothesis Hwrite : forall p level, preserves R (digitalWrite p level).
Hypothesis Hscale : preserves R (scale_dot_read env).
Hypothesis Hunits : preserves R (scale_dot_get_units env).
Hypothesis HState : forall s, preserves R (modify (set_State s)).
Hypothesis Hlcd : forall i, ok i -> preserves R (lcd_print_VOLUME i).
Hypothesis Hok : forall i, 0 <= i <= 2 -> ok i.
Hypothesis Hcapture :
  forall u, preserves R
              (modify (fun m => set_locals (if flag m =? 0 then 1 else flag m)
                                           (Int.to_long (u * -1)) m)).
Hypothesis Hlocals :
  forall i, preserves R (modify (fun m => set_locals 0 (array_get (val m) i) m)).
Hypothesis Hslot :
  forall i v, preserves R (EEPROMWrite (array_get address i) v).
Hypothesis Hval :
  forall i v, preserves R (modify (fun m => set_val (array_set (val m) i v) m)).
Hypothesis HselectedMode : forall s, preserves R (modify (set_selectedMode s)).
Hypothesis Hlogged : forall t, preserves R (modify (logged t)).
Hypothesis Hindex :
  preserves R (modify (fun m => set_index (next_index (index m)) m)).
Hypothesis Hshow : preserves R (m <- get ;; updateMode (index m)).

Lemma updateMode_keeps i : (i <> 3 -> ok i) -> preserves R (updateMode i).
Proof.
  intros Hi. unfold updateMode. destruct (Z.eqb_spec i 3); keep.
Qed.

Lemma DebounceSwitch_keeps : preserves R (DebounceSwitch env).
Proof. unfold DebounceSwitch. keep. Qed.

Lemma release_loop_keeps fuel : preserves R (release_loop env fuel).
Proof. induction fuel as [| fuel IH]; cbn [release_loop]; keep. Qed.

Lemma selection_loop_keeps fuel :
  forall i, 0 <= i <= 2 -> preserves R (selection_loop env fuel i).
Proof.
  induction fuel as [| fuel IH]; intros i Hi; cbn [selection_loop]; keep.
  - apply DebounceSwitch_keeps.
  - apply updateMode_keeps. auto.
  - apply IH. destruct (_ =? 1); [| exact Hi].
    destruct (Z.gtb_spec (i + 1) 2); lia.
Qed.

Lemma selection_keeps fuel : preserves R (selection env fuel).
Proof.
  unfold selection. keep.
  - apply release_loop_keeps.
  - apply updateMode_keeps. intros _. apply Hok. lia.
  - apply selection_loop_keeps. lia.
Qed.

Lemma inspect_loop_keeps fuel :
  forall i, 0 <= i <= 3 -> preserves R (inspect_loop env fuel i).
Proof.
  induction fuel as [| fuel IH]; intros i Hi; cbn [inspect_loop]; [keep |].
  apply preserves_bind; [tc_solve | apply DebounceSwitch_keeps | intros sw].
  set (i' := if sw =? 1 then if i + 1 >? 3 then 0 else i + 1 else i).
  assert (Hi' : 0 <= i' <= 3).
  { subst i'. destruct (sw =? 1); [| exact Hi].
    destruct (Z.gtb_spec (i + 1) 3); lia. }
  apply preserves_bind; [tc_solve | | intros _].
  - destruct (Z.ltb_spec i' 3); [apply Hlcd, Hok; lia | keep].
  - keep; by apply IH.
Qed.

Lemma log_readings_keeps count : preserves R (log_readings env count).
Proof. induction count as [| count IH]; cbn [log_readings]; keep. Qed.

Lemma median_loop_keeps t fuel : preserves R (median_loop env fuel t).
Proof.
  induction fuel as [| fuel IH]; cbn [median_loop]; unfold median_pass; keep.
  apply log_readings_keeps.
Qed.

Lemma manual_loop_keeps fuel : preserves R (manual_loop env fuel).
Proof. induction fuel as [| fuel IH]; cbn [manual_loop]; keep. Qed.

Lemma hold_loop_keeps fuel : preserves R (hold_loop env fuel).
Proof. induction fuel as [| fuel IH]; cbn [hold_loop]; keep. Qed.

Lemma capture_loop_keeps fuel : preserves R (capture_loop env fuel).
Proof.
  induction fuel as [| fuel IH]; cbn [capture_loop]; keep.
  apply hold_loop_keeps.
Qed.

Lemma calibrateFunction_keeps fuel i :
  ok i -> preserves R (calibrateFunction env fuel i).
Proof.
  intros Hi. unfold calibrateFunction. keep.
  apply capture_loop_keeps.
Qed.

Lemma load_thresholds_keeps : preserves R load_thresholds.
Proof. unfold load_thresholds, load_step. keep. Qed.

Lemma after_load_keeps fuel : preserves R (after_load env fuel).
Proof.
  unfold after_load, inspectContents.
  apply preserves_bind; [tc_solve | apply Hread | intros mo].
  apply preserves_bind; [tc_solve | apply Hread | intros d].
  apply preserves_bind; [tc_solve | | intros _; exact Hshow].
  keep. apply inspect_loop_keeps. lia.
Qed.

Lemma setup_prefix_keeps fuel : preserves R (setup_prefix env fuel).
Proof.
  unfold setup_prefix.
  apply preserves_bind; [tc_solve | apply Hread | intros d].
  apply preserves_bind; [tc_solve | keep | intros both].
  destruct both; [| keep].
  apply (preserves_bind_post R _ _ (fun s => 0 <= s <= 2)).
  - intros m s m'. apply selection_range.
  - apply selection_keeps.
  - intros s Hs. keep. apply calibrateFunction_keeps. by apply Hok.
Qed.

Lemma setup_keeps fuel : preserves R (setup env fuel).
Proof.
  intros m. rewrite setup_eq. revert m.
  apply preserves_bind; [tc_solve | apply setup_prefix_keeps | intros _].
  apply preserves_bind; [tc_solve | apply load_thresholds_keeps | intros _].
  apply after_load_keeps.
Qed.

Lemma control_keeps fuel t : preserves R (control env fuel t).
Proof.
  unfold control.
  apply preserves_bind; [tc_solve | apply Hlogged | intros _].
  apply preserves_bind; [tc_solve | | intros _].
  - destruct (negb _); [apply median_loop_keeps | apply manual_loop_keeps].
  - apply preserves_bind; [tc_solve | apply Hwrite | intros _].
    apply preserves_bind; [tc_solve | apply Hwrite | intros _].
    exact Hshow.
Qed.

Lemma loop_keeps fuel m :
  (dispense_condition env m = true -> ok (index m)) ->
  R m (state_of (loop env fuel m)).
Proof.
  intros Hcond. rewrite loop_eq.
  assert (Hpolled : R m (polled env m)).
  { assert (H : preserves R (DebounceSwitch env ;; scale_dot_read env ;;
                             digitalRead env DISPENSE)).
    { keep. apply DebounceSwitch_keeps. }
    exact (H m). }
  etransitivity; [exact Hpolled |].
  revert Hcond. generalize (polled env m). intros m1 Hcond. revert m1.
  apply preserves_bind; [tc_solve | | intros _].
  - destruct (dispense_condition env m); [| keep].
    apply preserves_bind; [tc_solve | by apply Hlcd, Hcond | intros _].
    keep. apply control_keeps.
  - destruct (_ =? 1); [| keep].
    apply preserves_bind; [tc_solve | exact Hindex | intros _]. exact Hshow.
Qed.

End Granular.

(** ** Inspection *)

#[local] Instance grows_preorder : PreOrder grows.
Proof.
  split.
  - intros m. exists []. by rewrite app_nil_r.
  - intros m1 m2 m3 [l1 H1] [l2 H2]. exists (l1 ++ l2).
    by rewrite H2, H1, app_assoc.
Qed.

Lemma inspect_loop_step env fuel i m :
  let s1 := debounce_next (Z.b2z (pin_MODE env (n_MODE m))) (State m) in
  let i' := if debounce_out s1 =? 1
            then (if i + 1 >? 3 then 0 else i + 1) else i in
  exists m3,
    n_DISPENSE m3 = S (n_DISPENSE m) /\ n_MODE m3 = S (n_MODE m)
    /\ inspect_loop env (S fuel) i m
       = if pin_DISPENSE env (n_DISPENSE m)
         then inspect_loop env fuel i' m3 else Done tt m3.
Proof.
  cbv zeta.
  cbn [inspect_loop bind DebounceSwitch digitalRead get modify ret State
       set_polls set_State].
  match goal with |- context [if ?b then lcd_print_VOLUME _ else _] =>
    destruct b end;
    cbn [bind lcd_print_VOLUME scale_dot_read modify ret digitalRead
         state_of State set_polls set_State set_history
         n_DISPENSE n_MODE n_scale n_units];
    (eexists; split; [| split;
      [| destruct (pin_DISPENSE env (n_DISPENSE m)); reflexivity]];
     reflexivity).
Qed.

Lemma inspect_loop_exits env k :
  forall fuel i m,
    (k < fuel)%nat ->
    (forall j, (j < k)%nat -> pin_DISPENSE env (n_DISPENSE m + j) = true) ->
    pin_DISPENSE env (n_DISPENSE m + k) = false ->
    exists m',
      inspect_loop env fuel i m = Done tt m'
      /\ n_DISPENSE m' = (n_DISPENSE m + S k)%nat
      /\ n_MODE m' = (n_MODE m + S k)%nat.
Proof.
  induction k as [| k IH]; intros fuel i m Hfuel Hhigh Hlow;
    (destruct fuel as [| fuel]; [lia |]);
    destruct (inspect_loop_step env fuel i m) as (m3 & HD & HM & ->).
  - rewrite Nat.add_0_r in Hlow. rewrite Hlow.
    exists m3. split; [reflexivity |]. lia.
  - pose proof (Hhigh 0%nat ltac:(lia)) as H0. rewrite Nat.add_0_r in H0.
    rewrite H0.
    edestruct (IH fuel) as (m' & E & HD' & HM'); [| | | exists m'; split; [exact E |]].
    + lia.
    + intros j Hj. rewrite HD.
      replace (S (n_DISPENSE m) + j)%nat with (n_DISPENSE m + S j)%nat by lia.
      apply Hhigh. lia.
    + rewrite HD.
      replace (S (n_DISPENSE m) + k)%nat with (n_DISPENSE m + S k)%nat by lia.
      exact Hlow.
    + lia.
Qed.

Lemma inspect_loop_waits env :
  forall fuel i m,
    (forall j, pin_DISPENSE env (n_DISPENSE m + j) = true) ->
    returns (inspect_loop env fuel i m) = false.
Proof.
  induction fuel as [| fuel IH]; intros i m Hhigh; [reflexivity |].
  destruct (inspect_loop_step env fuel i m) as (m3 & HD & HM & ->).
  pose proof (Hhigh 0%nat) as H0. rewrite Nat.add_0_r in H0. rewrite H0.
  apply IH. intros j. rewrite HD.
  replace (S (n_DISPENSE m) + j)%nat with (n_DISPENSE m + S j)%nat by lia.
  apply Hhigh.
Qed.

Lemma in_bounds_print i m :
  0 <= i <= 2 -> in_bounds m ->
  in_bounds (set_history (control_calls m) (VOLUME_reads m ++ [i]) m).
Proof.
  intros Hi Hb. unfold in_bounds in *. cbn [VOLUME_reads set_history].
  apply Forall_app. split; [exact Hb |]. constructor; [lia | constructor].
Qed.

(** X11. [inspectContents] only looks: in every state it reaches, the
    table [val], the EEPROM, the mode index, relay, indicator and the
    history of [control] calls are what they were, and the reads of
    [VOLUME] it adds are within bounds.  It returns at its first iteration
    that polls DISPENSE LOW (after [k + 1] polls of each button when the
    pin reads HIGH [k] times before), and does not return as long as
    DISPENSE reads HIGH. *)
Theorem inspectContents_read_only (env : Env) (m : Machine) :
  (forall fuel,
      let m' := state_of (inspectContents env fuel m) in
      val m' = val m /\ eeprom m' = eeprom m /\ index m' = index m
      /\ RELAY_PIN m' = RELAY_PIN m /\ LED_BUILTIN m' = LED_BUILTIN m
      /\ control_calls m' = control_calls m
      /\ (in_bounds m -> in_bounds m'))
  /\ (forall fuel k,
         (k < fuel)%nat ->
         (forall j, (j < k)%nat -> pin_DISPENSE env (n_DISPENSE m + j) = true) ->
         pin_DISPENSE env (n_DISPENSE m + k) = false ->
         exists m',
           inspectContents env fuel m = Done tt m'
           /\ n_DISPENSE m' = (n_DISPENSE m + S k)%nat
           /\ n_MODE m' = (n_MODE m + S k)%nat)
  /\ ((forall j, pin_DISPENSE env (n_DISPENSE m + j) = true) ->
      forall fuel, returns (inspectContents env fuel m) = false).
Proof.
  split; [| split].
  - intros fuel. cbv zeta. unfold inspectContents.
    assert (Hobs : inspected (state_of (inspect_loop env fuel 0 m))
                   = inspected m).
    { apply (inspect_loop_keeps (same inspected) env (fun _ => True)).
      - intros [] m0; reflexivity.
      - intros m0; reflexivity.
      - intros s m0; reflexivity.
      - intros i _ m0; reflexivity.
      - trivial.
      - lia. }
    unfold inspected, outputs in Hobs.
    injection Hobs as Hv He Hi _ Hr Hl Hc _.
    repeat (split; [assumption |]).
    apply (inspect_loop_keeps (keeps in_bounds) env (fun i => 0 <= i <= 2)).
    + intros [] m0 H; exact H.
    + intros m0 H; exact H.
    + intros s m0 H; exact H.
    + intros i Hi' m0 H. by apply in_bounds_print.
    + trivial.
    + lia.
  - intros fuel k. apply inspect_loop_exits.
  - intros Hhigh fuel. by apply inspect_loop_waits.
Qed.

Lemma inspectContents_read_only_witness :
  exists m',
    inspectContents release_env 5 (power_on ∅) = Done tt m'
    /\ n_DISPENSE m' = (0 + 1)%nat /\ n_MODE m' = (0 + 1)%nat.
Proof.
  destruct (inspectContents_read_only release_env (power_on ∅))
    as (_ & Hexit & _).
  apply (Hexit 5%nat 0%nat).
  - lia.
  - intros j Hj. lia.
  - reflexivity.
Defined.

(** ** Bounds of the reads of [VOLUME] *)

Lemma grows_frame env : primitive_frame grows env.
Proof.
  split.
  - intros [] m; exists []; cbn; by rewrite app_nil_r.
  - intros [] level m; exists []; cbn; by rewrite app_nil_r.
  - intros m; exists []; cbn; by rewrite app_nil_r.
  - intros i m. by exists [i].
Qed.

Lemma sound_show : preserves (keeps sound) (m <- get ;; updateMode (index m)).
Proof.
  intros m [Hb Hi]. cbn [bind get]. unfold updateMode.
  destruct (Z.eqb_spec (index m) 3) as [E | E]; [by split |].
  split; [apply in_bounds_print; [lia | exact Hb] | exact Hi].
Qed.

Lemma sound_print i : 0 <= i <= 2 -> preserves (keeps sound) (lcd_print_VOLUME i).
Proof. intros Hi m [Hb Hx]. split; [by apply in_bounds_print | exact Hx]. Qed.

Lemma sound_next :
  preserves (keeps sound)
            (modify (fun m => set_index (next_index (index m)) m)).
Proof. intros m [Hb Hi]. split; [exact Hb | apply next_index_range]. Qed.

Ltac sound_frame :=
  first [ exact sound_show | exact sound_next
        | intros i Hi; exact (sound_print i Hi)
        | intros [] ? H; exact H
        | intros [] ? ? H; exact H
        | intros ? H; exact H
        | intros ? ? H; exact H
        | intros ? ? ? H; exact H
        | trivial ].

Lemma setup_sound env e fuel : sound (state_of (setup env fuel (power_on e))).
Proof.
  apply (setup_keeps (keeps sound) env (fun i => 0 <= i <= 2)); try sound_frame.
  split; [constructor | cbn; lia].
Qed.

Lemma loop_sound env fuel m :
  ~ (index m = 3 /\ dispense_condition env m = true) ->
  sound m -> sound (state_of (loop env fuel m)).
Proof.
  intros Hno Hm.
  apply (loop_keeps (keeps sound) env (fun i => 0 <= i <= 2));
    try sound_frame; try exact Hm.
  intros Hc. destruct Hm as [_ Hi].
  destruct (Z.eq_dec (index m) 3) as [E | E]; [| cbv beta; lia].
  exfalso. apply Hno. by split.
Qed.

Lemma loop_index_range env fuel m :
  0 <= index m <= 3 -> 0 <= index (state_of (loop env fuel m)) <= 3.
Proof.
  intros Hm.
  apply (loop_keeps (keeps (fun m => 0 <= index m <= 3)) env (fun _ => True));
    try (first [ intros [] m0 H; exact H | intros [] ? m0 H; exact H
               | intros m0 H; exact H | intros ? m0 H; exact H
               | intros ? ? m0 H; exact H | trivial ]); try exact Hm.
  - intros m0 _. apply next_index_range.
  - intros m0 H. cbn [bind get]. unfold updateMode.
    destruct (index m0 =? 3); exact H.
Qed.

Lemma loop_tail_grows sw :
  preserves grows
    (if sw =? 1
     then modify (fun m => set_index (next_index (index m)) m) ;;
          m <- get ;; updateMode (index m)
     else ret tt : comp unit).
Proof.
  destruct (sw =? 1); [| apply preserves_ret; tc_solve].
  apply preserves_bind; [tc_solve | | intros _].
  - intros m. exists []. cbn. by rewrite app_nil_r.
  - intros m. cbn [bind get]. unfold updateMode.
    destruct (index m =? 3); [reflexivity | by exists [index m]].
Qed.

Lemma loop_reads_index env fuel m :
  dispense_condition env m = true ->
  exists l,
    VOLUME_reads (state_of (loop env fuel m))
    = VOLUME_reads m ++ index m :: l.
Proof.
  intros Hc. rewrite loop_eq, Hc.
  pose proof (grows_frame env) as PF.
  assert (H : preserves grows
                (bind (digitalWrite LED true ;; digitalWrite RELAY true ;;
                       control env fuel (array_get (val m) (index m)))
                      (fun _ => if switchState env m =? 1
                                then modify (fun m => set_index
                                                        (next_index (index m)) m) ;;
                                     m <- get ;; updateMode (index m)
                                else ret tt))).
  { apply preserves_bind; [tc_solve | | intros _; apply loop_tail_grows].
    apply preserves_bind; [tc_solve | apply PF | intros _].
    apply preserves_bind; [tc_solve | apply PF | intros _].
    apply (control_preserves grows env PF).
    intros m0. exists []. cbn. by rewrite app_nil_r. }
  destruct (H (set_history (control_calls (polled env m))
                           (VOLUME_reads (polled env m) ++ [index m])
                           (polled env m))) as [l Hl].
  exists l. cbn [VOLUME_reads set_history polled set_polls set_State] in Hl.
  rewrite <- app_assoc in Hl. exact Hl.
Qed.

(** X12. From power-up, [setup] reads [VOLUME] at indices 0, 1, 2 only
    and leaves a mode index between 0 and 3.  From a state where that
    holds, an iteration of [loop] keeps the index between 0 and 3, and it
    reads [VOLUME] out of bounds if and only if it enters the dispense
    branch with index 3 (Manual). *)
Theorem VOLUME_reads_in_bounds (env : Env) (fuel : nat) :
  (forall e, sound (state_of (setup env fuel (power_on e))))
  /\ (forall m,
         sound m ->
         let m' := state_of (loop env fuel m) in
         0 <= index m' <= 3
         /\ (in_bounds m'
             <-> ~ (index m = 3 /\ dispense_condition env m = true))).
Proof.
  split; [intros e; apply setup_sound |].
  intros m Hm. cbv zeta. split; [apply loop_index_range, Hm |].
  split.
  - intros Hb [Hi Hc].
    destruct (loop_reads_index env fuel m Hc) as [l Hl].
    unfold in_bounds in Hb. rewrite Hl, Hi in Hb.
    apply Forall_app in Hb as [_ Hb]. inversion Hb. lia.
  - intros Hno. by apply loop_sound.
Qed.

Lemma VOLUME_reads_in_bounds_witness :
  sound (power_on ∅)
  /\ 0 <= index (state_of (loop release_env 4 (power_on ∅))) <= 3.
Proof.
  assert (H : sound (power_on ∅)) by (split; [constructor | cbn; lia]).
  split; [exact H |].
  destruct (VOLUME_reads_in_bounds release_env 4) as [_ Hloop].
  destruct (Hloop (power_on ∅) H) as [Hi _]. exact Hi.
Defined.

(** ** Relay and indicator *)

Lemma on_return_bind {A B} (P Q Q' : Machine -> Prop) (c : comp A)
    (k : A -> comp B) :
  on_return P c Q -> (forall a, on_return Q (k a) Q') ->
  on_return P (bind c k) Q'.
Proof.
  intros Hc Hk m b m' Hm E. unfold bind in E.
  destruct (c m) as [a m1 | m1] eqn:E1; [| discriminate].
  exact (Hk a m1 b m' (Hc m a m1 Hm E1) E).
Qed.

Lemma on_return_same {A} (c : comp A) :
  preserves (same outputs) c -> on_return off c off.
Proof.
  intros H m a m' Hm E. specialize (H m). rewrite E in H.
  unfold same, off in *. cbn [state_of] in H. congruence.
Qed.

Lemma on_return_weaken {A} (P P' Q : Machine -> Prop) (c : comp A) :
  (forall m, P' m -> P m) -> on_return P c Q -> on_return P' c Q.
Proof. intros HP H m a m' Hm. apply H, HP, Hm. Qed.

Ltac outputs_frame :=
  first [ intros [] ?; reflexivity
        | intros ?; reflexivity
        | intros ? ?; reflexivity
        | intros ? ? ?; reflexivity
        | intros ? ?; cbn [bind get]; unfold updateMode;
          destruct (_ =? 3); reflexivity
        | intros ?; cbn [bind get]; unfold updateMode;
          destruct (_ =? 3); reflexivity
        | trivial ].

Lemma show_outputs : preserves (same outputs) (m <- get ;; updateMode (index m)).
Proof.
  intros m. cbn [bind get]. unfold updateMode.
  destruct (index m =? 3); reflexivity.
Qed.

Lemma control_off env fuel t : on_return (fun _ => True) (control env fuel t) off.
Proof.
  unfold control.
  apply (on_return_bind _ (fun _ => True)); [done | intros _].
  apply (on_return_bind _ (fun _ => True)); [done | intros _].
  intros m a m' _ E.
  cbn [bind digitalWrite modify get] in E. unfold updateMode in E.
  destruct (_ =? 3); inversion E; reflexivity.
Qed.

Lemma capture_loop_off env fuel :
  on_return (fun m => flag m <> 0 -> off m) (capture_loop env fuel) off.
Proof.
  induction fuel as [| fuel IH]; intros m a m' Hm E; [discriminate |].
  cbn [capture_loop bind get] in E.
  destruct (Z.eqb_spec (flag m) 0) as [E0 | E0].
  - refine (on_return_bind (fun _ => True) (fun _ => True) off
                            (hold_loop env (S fuel)) _ _ _ m a m' I E);
      [done |].
    intros _ m1 b m2 _ E1. cbn [bind digitalWrite modify] in E1.
    refine (IH _ _ _ _ E1). intros _. reflexivity.
  - inversion E; subst. by apply Hm.
Qed.

Lemma calibrateFunction_off env fuel i :
  on_return (fun _ => True) (calibrateFunction env fuel i) off.
Proof.
  unfold calibrateFunction.
  apply (on_return_bind _ (fun m => flag m = 0)).
  { intros m a m' _ E. inversion E. reflexivity. }
  intros _.
  apply (on_return_bind _ (fun m => flag m = 0)).
  { intros m a m' Hm E. inversion E. exact Hm. }
  intros _.
  apply (on_return_bind _ off).
  { apply (on_return_weaken (fun m => flag m <> 0 -> off m));
      [intros m Hm Hne; by destruct Hne | apply capture_loop_off]. }
  intros _ m a m' Hm E. inversion E. exact Hm.
Qed.

Lemma setup_off env fuel : on_return off (setup env fuel) off.
Proof.
  intros m a m' Hm E. rewrite setup_eq in E. revert m a m' Hm E.
  apply (on_return_bind _ off).
  - unfold setup_prefix.
    apply (on_return_bind _ off);
      [apply on_return_same; intros m; reflexivity | intros d].
    apply (on_return_bind _ off).
    { apply on_return_same. destruct (d =? 0); intros m; reflexivity. }
    intros [].
    + apply (on_return_bind _ (fun _ => True)); [done | intros s].
      apply (on_return_bind _ (fun _ => True)); [done | intros _].
      apply calibrateFunction_off.
    + intros m a m' Hm E. inversion E; by subst.
  - intros _. apply on_return_same.
    apply preserves_bind; [tc_solve | | intros _].
    + apply (load_thresholds_keeps (same outputs)); outputs_frame.
    + apply (after_load_keeps (same outputs) env (fun _ => True));
        outputs_frame.
Qed.

Lemma loop_off env fuel : on_return off (loop env fuel) off.
Proof.
  intros m a m' Hm E. rewrite loop_eq in E.
  assert (Hp : off (polled env m)) by exact Hm.
  revert Hp E. generalize (polled env m). intros m1 Hp E.
  revert m1 a m' Hp E.
  apply (on_return_bind _ off).
  - destruct (dispense_condition env m).
    + apply (on_return_bind _ (fun _ => True)); [done | intros _].
      apply (on_return_bind _ (fun _ => True)); [done | intros _].
      apply (on_return_bind _ (fun _ => True)); [done | intros _].
      apply control_off.
    + intros m1 a m' Hm1 E. inversion E; by subst.
  - intros _. apply on_return_same.
    destruct (_ =? 1); [| apply preserves_ret; tc_solve].
    apply preserves_bind; [tc_solve | intros m0; reflexivity | intros _].
    apply show_outputs.
Qed.

Lemma loops_off env fuel k : on_return off (loops env fuel k) off.
Proof.
  induction k as [| k IH]; cbn [loops].
  - intros m a m' Hm E. inversion E; by subst.
  - apply (on_return_bind _ off); [apply loop_off | intros _; exact IH].
Qed.

Lemma returns_Done_inv {A} (o : outcome A) :
  returns o = true -> exists a, o = Done a (state_of o).
Proof. destruct o as [a m | m]; [by exists a | discriminate]. Qed.

(** X13. Whenever [setup] and any number of iterations of [loop] have
    returned, relay and indicator are off: every path that switches them
    on ([calibrateFunction], the dispense branch of [loop]) switches them
    off before it returns. *)
Theorem outputs_off_between_iterations (env : Env) (e : gmap Z Z)
    (fuel k : nat) :
  returns (sketch env fuel k (power_on e)) = true ->
  RELAY_PIN (state_of (sketch env fuel k (power_on e))) = false
  /\ LED_BUILTIN (state_of (sketch env fuel k (power_on e))) = false.
Proof.
  intros Hret. apply returns_Done_inv in Hret as [a E].
  assert (H : off (state_of (sketch env fuel k (power_on e)))).
  { revert E. generalize (state_of (sketch env fuel k (power_on e))).
    intros m' E.
    assert (Hs : on_return off (sketch env fuel k) off).
    { unfold sketch. apply (on_return_bind _ off);
        [apply setup_off | intros _; apply loops_off]. }
    refine (Hs _ _ _ _ E). reflexivity. }
  unfold off, outputs in H. by injection H.
Qed.

Lemma bind_blocked {A B} (c : comp A) (k : A -> comp B) m :
  (forall a m', returns (k a m') = true) ->
  returns (bind c k m) = false ->
  state_of (bind c k m) = state_of (c m) /\ returns (c m) = false.
Proof.
  intros Hk. unfold bind. destruct (c m) as [a m1 | m1]; [| done].
  rewrite Hk. discriminate.
Qed.

Lemma control_tail_returns m :
  returns ((digitalWrite LED false ;; digitalWrite RELAY false ;;
            m <- get ;; updateMode (index m)) m) = true.
Proof.
  cbn [bind digitalWrite modify get]. unfold updateMode.
  destruct (_ =? 3); reflexivity.
Qed.

Lemma loop_tail_returns sw m :
  returns ((if sw =? 1
            then modify (fun m => set_index (next_index (index m)) m) ;;
                 m <- get ;; updateMode (index m)
            else ret tt : comp unit) m) = true.
Proof.
  destruct (sw =? 1); [| reflexivity].
  cbn [bind modify get]. unfold updateMode. destruct (_ =? 3); reflexivity.
Qed.

Lemma control_blocked env fuel t m :
  returns (control env fuel t m) = false ->
  outputs (state_of (control env fuel t m)) = outputs m.
Proof.
  change (control env fuel t m)
    with (bind (if negb (t =? -1) then median_loop env fuel t
                else manual_loop env fuel)
               (fun _ => digitalWrite LED false ;; digitalWrite RELAY false ;;
                         m <- get ;; updateMode (index m))
               (logged t m)).
  intros Hb.
  apply bind_blocked in Hb as [-> _];
    [| intros a m'; apply control_tail_returns].
  change (outputs m) with (outputs (logged t m)).
  generalize (logged t m). intros m1.
  destruct (negb _).
  - apply (median_loop_keeps (same outputs)); outputs_frame.
  - apply (manual_loop_keeps (same outputs)); outputs_frame.
Qed.

(** X14. An iteration of [loop] can fail to return only inside
    [control]: if it has not returned, however long it has run, it has
    entered the dispense branch, and relay and indicator are on. *)
Theorem outputs_on_while_dispensing (env : Env) (fuel : nat) (m : Machine) :
  returns (loop env fuel m) = false ->
  dispense_condition env m = true
  /\ RELAY_PIN (state_of (loop env fuel m)) = true
  /\ LED_BUILTIN (state_of (loop env fuel m)) = true.
Proof.
  rewrite loop_eq. intros Hb.
  apply bind_blocked in Hb as [-> Hb];
    [| intros a m'; apply loop_tail_returns].
  destruct (dispense_condition env m); [| discriminate].
  split; [reflexivity |].
  revert Hb.
  change ((lcd_print_VOLUME (index m) ;; digitalWrite LED true ;;
           digitalWrite RELAY true ;;
           control env fuel (array_get (val m) (index m))) (polled env m))
    with (control env fuel (array_get (val m) (index m))
            (set_outputs true true
               (set_history (control_calls (polled env m))
                            (VOLUME_reads (polled env m) ++ [index m])
                            (polled env m)))).
  intros Hb. apply control_blocked in Hb.
  unfold outputs in Hb. cbn [RELAY_PIN LED_BUILTIN set_outputs] in Hb.
  injection Hb as Hr Hl. by split.
Qed.

Lemma outputs_off_between_iterations_witness :
  RELAY_PIN (state_of (sketch dispense_env 5 1
                              (power_on (EEPROMWrite_cells 0 220000 ∅)))) = false
  /\ LED_BUILTIN (state_of (sketch dispense_env 5 1
                              (power_on (EEPROMWrite_cells 0 220000 ∅)))) = false.
Proof.
  apply (outputs_off_between_iterations dispense_env
           (EEPROMWrite_cells 0 220000 ∅) 5 1).
  vm_compute. reflexivity.
Defined.

Lemma outputs_on_while_dispensing_witness :
  dispense_condition release_env (power_on ∅) = true
  /\ RELAY_PIN (state_of (loop release_env 4 (power_on ∅))) = true
  /\ LED_BUILTIN (state_of (loop release_env 4 (power_on ∅))) = true.
Proof.
  apply (outputs_on_while_dispensing release_env 4 (power_on ∅)).
  vm_compute. reflexivity.
Defined.

(** ** The mode index over the iterations of [loop] *)

Lemma index_step i sw :
  0 <= i <= 3 ->
  (if sw =? 1 then next_index i else i)
  = (i + Z.of_nat (if (sw =? 1)%Z then 1 else 0)) mod 4.
Proof.
  intros Hi. destruct (sw =? 1).
  - by apply next_index_mod.
  - rewrite Z.mod_small; lia.
Qed.

Lemma loop_idle env fuel m :
  dispense_condition env m = false ->
  exists m',
    loop env fuel m = Done tt m'
    /\ index m' = (if switchState env m =? 1
                   then next_index (index m) else index m)
    /\ State m' = debounce_next (Z.b2z (pin_MODE env (n_MODE m))) (State m)
    /\ n_MODE m' = S (n_MODE m)
    /\ n_DISPENSE m' = S (n_DISPENSE m).
Proof.
  intros Hc. rewrite loop_eq, Hc. unfold bind at 1. cbn [ret].
  destruct (switchState env m =? 1).
  - cbn [bind modify get]. unfold updateMode.
    destruct (_ =? 3); eexists; (split; [reflexivity |]); cbn;
      (split; [reflexivity |]); (split; [reflexivity |]);
      split; reflexivity.
  - eexists. split; [reflexivity |]. cbn.
    split; [reflexivity |]. split; [reflexivity |]. split; reflexivity.
Qed.

Lemma released_idle env m :
  pin_DISPENSE env (n_DISPENSE m) = true -> dispense_condition env m = false.
Proof. intros H. unfold dispense_condition. by rewrite H. Qed.

Lemma loops_idle env fuel k :
  forall m,
    0 <= index m <= 3 ->
    (forall j, (j < k)%nat -> pin_DISPENSE env (n_DISPENSE m + j) = true) ->
    exists m',
      loops env fuel k m = Done tt m'
      /\ index m'
         = (index m
            + Z.of_nat (triggered
                          (polls (map (pin_MODE env) (seq (n_MODE m) k))
                                 (State m)))) mod 4.
Proof.
  induction k as [| k IH]; intros m Hi Hhigh.
  - exists m. split; [reflexivity |].
    cbn [seq map polls]. change (triggered []) with 0%nat.
    rewrite Z.add_0_r, Z.mod_small; lia.
  - pose proof (Hhigh 0%nat ltac:(lia)) as H0. rewrite Nat.add_0_r in H0.
    destruct (loop_idle env fuel m (released_idle env m H0))
      as (m1 & E1 & Hi1 & Hs1 & Hm1 & Hd1).
    rewrite (index_step _ _ Hi) in Hi1.
    destruct (IH m1) as (m' & E & Hi').
    + rewrite Hi1. pose proof (Z.mod_pos_bound
        (index m + Z.of_nat (if (switchState env m =? 1)%Z then 1 else 0)) 4).
      lia.
    + intros j Hj. rewrite Hd1.
      replace (S (n_DISPENSE m) + j)%nat with (n_DISPENSE m + S j)%nat by lia.
      apply Hhigh. lia.
    + exists m'. cbn [loops]. rewrite (bind_Done _ _ _ _ _ E1).
      split; [exact E |].
      rewrite Hi', Hi1, Hm1, Hs1. rewrite polls_seq_cons, triggered_cons.
      rewrite Zplus_mod_idemp_l, Nat2Z.inj_add. unfold switchState.
      f_equal. lia.
Qed.

Lemma loop_index env fuel m :
  match loop env fuel m with
  | Done _ m' =>
      index m' = if switchState env m =? 1
                 then next_index (index m) else index m
  | Spin m' => index m' = index m
  end.
Proof.
  rewrite loop_eq.
  pose proof (index_frame env) as PF.
  set (branch := if dispense_condition env m then _ else _).
  assert (Hb : preserves (same index) branch).
  { subst branch. frame. apply (control_preserves _ _ PF). untouched. }
  specialize (Hb (polled env m)). unfold same in Hb.
  cbn [polled index set_polls set_State] in Hb.
  unfold bind at 1.
  destruct (branch (polled env m)) as [[] m1 | m1]; cbn [state_of] in Hb;
    [| exact Hb].
  destruct (switchState env m =? 1); [| exact Hb].
  cbn [bind modify get]. unfold updateMode.
  destruct (_ =? 3); cbn; by rewrite Hb.
Qed.

(** C9. The index update of [loop] maps 0, 1, 2, 3 to 1, 2, 3, 0, so [k]
    updates from 0 give [k mod 4].  An iteration of [loop] that returns
    has advanced [index] by one update when its call of [DebounceSwitch]
    returned 1, and left it alone otherwise; an iteration that does not
    enter the dispense branch returns, whatever the fuel.  While the
    DISPENSE button is not pressed, [k] iterations of [loop] return and
    leave [index] advanced, modulo 4, by the number of their calls of
    [DebounceSwitch] that returned 1.  [setup] leaves [index] at 0, and in
    every state the sketch reaches from power-up [index] is one of 0, 1,
    2, 3. *)
Theorem mode_index_cycle :
  (forall i, 0 <= i <= 3 -> next_index i = (i + 1) mod 4)
  /\ (forall k, Nat.iter k next_index 0 = Z.of_nat k mod 4)
  /\ (forall env fuel m,
         match loop env fuel m with
         | Done _ m' =>
             index m' = if switchState env m =? 1
                        then next_index (index m) else index m
         | Spin m' => index m' = index m
         end)
  /\ (forall env fuel m,
         dispense_condition env m = false ->
         returns (loop env fuel m) = true)
  /\ (forall env fuel k m,
         0 <= index m <= 3 ->
         (forall j, (j < k)%nat ->
                    pin_DISPENSE env (n_DISPENSE m + j) = true) ->
         exists m',
           loops env fuel k m = Done tt m'
           /\ index m'
              = (index m
                 + Z.of_nat (triggered
                               (polls (map (pin_MODE env) (seq (n_MODE m) k))
                                      (State m)))) mod 4)
  /\ (forall env e fuel, index (state_of (setup env fuel (power_on e))) = 0)
  /\ (forall env e fuel k,
         0 <= index (state_of (sketch env fuel k (power_on e))) <= 3).
Proof.
  split; [exact next_index_mod |].
  split; [exact iter_next_index |].
  split; [exact loop_index |].
  split; [| split; [| split]].
  - intros env fuel m Hc.
    destruct (loop_idle env fuel m Hc) as (m' & -> & _). reflexivity.
  - intros env fuel k. apply loops_idle.
  - intros env e fuel.
    apply (setup_preserves (same index) env (index_frame env)); untouched.
  - intros env e fuel k.
    apply (sketch_preserves (keeps (fun m => 0 <= index m <= 3)) env
             (primitive_frame_keeps index (fun i => 0 <= i <= 3) env
                (index_frame env)));
      try untouched.
    + intros m H. apply next_index_range.
    + cbn. lia.
Qed.

Lemma mode_index_cycle_witness :
  (exists m',
      loops cycle_env 0 52 (state_of (setup cycle_env 0 (power_on ∅)))
      = Done tt m'
      /\ index m'
         = (index (state_of (setup cycle_env 0 (power_on ∅)))
            + Z.of_nat
                (triggered
                   (polls (map (pin_MODE cycle_env)
                               (seq (n_MODE (state_of (setup cycle_env 0
                                                         (power_on ∅)))) 52))
                          (State (state_of (setup cycle_env 0
                                              (power_on ∅))))))) mod 4)
  /\ map (fun k => index (state_of (sketch cycle_env 0 k (power_on ∅))))
         [0; 13; 26; 39; 52]%nat
     = [0; 1; 2; 3; 0].
Proof.
  destruct mode_index_cycle as (_ & _ & _ & _ & Hloops & _).
  split.
  - apply (Hloops cycle_env 0%nat 52%nat
             (state_of (setup cycle_env 0 (power_on ∅)))).
    + vm_compute. split; discriminate.
    + intros j _. reflexivity.
  - vm_compute. reflexivity.
Defined.
